(** * todo.py: a shallow embedding of the to-do list manager

    The program keeps one Python list of task dictionaries, loads it from
    [todo_list.json], applies one command and writes the list back.  The
    embedding follows [src/todo.py] function by function.

    - A task dictionary is the record [todo]; the keys are the fields.
    - The mutable objects the program touches (the list [todos], the rich
      console, the wall clock read by [datetime.now()], the data file) are
      the fields of [world]; the functions of the program are computations
      in the monad [M], which threads a [world].  A call ends in one of
      the ways of [outcome]: it returns a value; or an exception leaves it
      ([MarkupError] out of [console.print], [ValueError] out of the
      conversion of an integer to text), the objects being then as the
      world of [Raised] records them; or the fuel given to the one [while]
      loop of the program runs out (which is shown never to happen).  No
      [except] clause of the program catches these exceptions, so they end
      the process with status 1.
    - Strings are ASCII texts ([string] of the standard library).
    - The data file holds a JSON list of task dictionaries, or text that
      is not JSON, or is absent; a file that is not UTF-8 text, or holds
      other JSON, or an integer that [json.load] refuses, is not modelled.
    - Memory is unbounded: a list may have any length.
    - Integers are those of CPython 3.11 and later in its default
      configuration: a conversion between an integer and its decimal text
      fails above 4300 digits. *)

From Stdlib Require Import ZArith List Bool Ascii String Lia.
From Stdlib Require Import DecimalString DecimalNat DecimalZ Finite Sorted.
Import ListNotations.

Local Open Scope Z_scope.
Local Open Scope list_scope.

(** ** Python strings *)

Module PyStr.

(** [str(n)] of a non-negative counter. *)
Definition str_nat (n : nat) : string :=
  NilZero.string_of_uint (Nat.to_uint n).

(** [str(z)] of a Python integer. *)
Definition str_int (z : Z) : string :=
  NilZero.string_of_int (Z.to_int z).

Definition is_upper (c : ascii) : bool :=
  ((65 <=? nat_of_ascii c) && (nat_of_ascii c <=? 90))%nat.

Definition lower_char (c : ascii) : ascii :=
  if is_upper c then ascii_of_nat (nat_of_ascii c + 32) else c.

(** [s.lower()] on ASCII text. *)
Fixpoint lower (s : string) : string :=
  match s with
  | EmptyString => EmptyString
  | String c r => String (lower_char c) (lower r)
  end.

(** [needle in hay]: [needle] occurs in [hay] as a contiguous run. *)
Fixpoint str_in (needle hay : string) : bool :=
  if String.prefix needle hay then true
  else match hay with
       | EmptyString => false
       | String _ r => str_in needle r
       end.

(** Characters that [int()] strips around a literal: tab, line feed,
    vertical tab, form feed, carriage return and space. *)
Definition is_space (c : ascii) : bool :=
  let n := nat_of_ascii c in
  ((9 <=? n) && (n <=? 13) || (n =? 32))%nat.

Definition is_digit (c : ascii) : bool :=
  ((48 <=? nat_of_ascii c) && (nat_of_ascii c <=? 57))%nat.

Definition digit_val (c : ascii) : Z := Z.of_nat (nat_of_ascii c - 48).

Fixpoint lstrip (s : string) : string :=
  match s with
  | EmptyString => EmptyString
  | String c r => if is_space c then lstrip r else s
  end.

Fixpoint rev_str (s acc : string) : string :=
  match s with
  | EmptyString => acc
  | String c r => rev_str r (String c acc)
  end.

Definition strip (s : string) : string :=
  rev_str (lstrip (rev_str (lstrip s) EmptyString)) EmptyString.

(** Digits of a decimal literal; a single underscore may separate two
    digits.  [prev] tells whether the previous character was a digit. *)
Fixpoint digits (s : string) (acc : Z) (prev : bool) : option Z :=
  match s with
  | EmptyString => if prev then Some acc else None
  | String c r =>
      if is_digit c then digits r (10 * acc + digit_val c) true
      else if Ascii.eqb c "_"%char then
             (if prev then
                match r with
                | EmptyString => None
                | String d _ => if is_digit d then digits r acc false else None
                end
              else None)
      else None
  end.

(** [sys.get_int_max_str_digits()] *)
Definition max_str_digits : Z := 4300.

(** How many digits a text holds (underscores and a sign do not count). *)
Fixpoint digit_count (s : string) : Z :=
  match s with
  | EmptyString => 0
  | String c r => if is_digit c then 1 + digit_count r else digit_count r
  end.

(** A text with more digits than a conversion accepts. *)
Definition too_many_digits (s : string) : bool :=
  max_str_digits <? digit_count s.

(** The literal after the sign: refused above the digit limit. *)
Definition literal (r : string) : option Z :=
  if too_many_digits r then None else digits r 0 false.

(** [int(s)] for a string [s]: [None] stands for [ValueError]. *)
Definition int (s : string) : option Z :=
  match strip s with
  | String "-" r => option_map Z.opp (literal r)
  | String "+" r => literal r
  | r => literal r
  end.

(** [str(z)], [f"{z}"] and [json.dump] of [z] raise [ValueError]. *)
Definition too_long (z : Z) : bool := too_many_digits (str_int z).

(** The text holds an opening square bracket, with which a rich markup tag
    starts. *)
Fixpoint has_bracket (s : string) : bool :=
  match s with
  | EmptyString => false
  | String c r => Ascii.eqb c "["%char || has_bracket r
  end.

End PyStr.

(** ** Task records *)

Record todo := mkTodo {
  id : Z;
  task : string;
  done : bool;
  created_at : string;
  completed_at : option string
}.

Definition option_string_eqb (a b : option string) : bool :=
  match a, b with
  | None, None => true
  | Some x, Some y => String.eqb x y
  | _, _ => false
  end.

(** [==] on two task dictionaries. *)
Definition todo_eqb (a b : todo) : bool :=
  (id a =? id b) && String.eqb (task a) (task b) && Bool.eqb (done a) (done b)
  && String.eqb (created_at a) (created_at b)
  && option_string_eqb (completed_at a) (completed_at b).

(** ** What the console prints *)

Record row := mkRow {
  row_id : string;
  row_task : string;
  row_completed : bool;
  row_created_at : string;
  row_completed_at : option string
}.

Inductive msg :=
| ListEmpty
| NoTasksFound
| PrintTable (rows : list row)
| AddedTask (name : string)
| NotFound (todo_id : Z)
| Repeated (name : string) (repeat_count : Z)
| RemovedTask (name : string)
| AlreadyEmpty
| AllRemoved
| MarkedCompleted (name : string)
| AlreadyCompleted (name : string)
| EmptyNoComplete
| AllCompleted
| MarkedPending (name : string)
| AlreadyPending (name : string)
| EmptyNoPending
| AllPending
| NameUpdated (old_name new_name : string)
| ErrorNotPositive (value : string)
| ErrorNotInteger (value : string)
| UsageError
| UpdatedList
| Help.

(** ** The state of a run and its monad *)

Record world := mkWorld {
  todos : list todo;           (* the list object bound to [todos] *)
  console : list msg;          (* what was printed, oldest first *)
  clock : nat -> string;       (* the n-th reading of the formatted clock *)
  ticks : nat;                 (* how many readings were taken *)
  file : option (list todo);   (* the data file: [Some l] when [json.load]
                                  reads it as the list [l]; [None] when it is
                                  absent or its text is not JSON *)
  print_raises : msg -> bool   (* whether rich raises [MarkupError] on a
                                  message whose texts hold a bracket; rich
                                  does so when a closing tag, such as [/x],
                                  matches no tag that is open *)
}.

(** The texts that the program interpolates, unescaped, into the markup of
    a message, or passes as cells of the table. *)
Definition row_texts (r : row) : list string :=
  row_task r :: row_created_at r ::
  match row_completed_at r with Some s => [s] | None => [] end.

Definition msg_texts (m : msg) : list string :=
  match m with
  | AddedTask n | RemovedTask n | Repeated n _
  | MarkedCompleted n | AlreadyCompleted n
  | MarkedPending n | AlreadyPending n
  | ErrorNotPositive n | ErrorNotInteger n => [n]
  | NameUpdated o n => [o; n]
  | PrintTable rows => flat_map row_texts rows
  | _ => []
  end.

(** The decimal texts of the integers formatted for a message. *)
Definition msg_numbers (m : msg) : list string :=
  match m with
  | NotFound todo_id => [PyStr.str_int todo_id]
  | Repeated _ repeat_count => [PyStr.str_int repeat_count]
  | PrintTable rows => map row_id rows
  | _ => []
  end.

(** Building and printing the message raises: an integer is too long for
    its text, or a text holds a bracket and rich refuses the markup.  A
    message whose texts hold no bracket carries only the tags that the
    program wrote, which are well formed. *)
Definition raises (w : world) (m : msg) : bool :=
  existsb PyStr.too_many_digits (msg_numbers m)
  || existsb PyStr.has_bracket (msg_texts m) && print_raises w m.

(** How a call ends: it returns [a] and leaves the world [w]; an exception
    leaves it when the world is [w]; the fuel of the loop ran out. *)
Inductive outcome (A : Type) : Type :=
| Returned (a : A) (w : world)
| Raised (w : world)
| OutOfFuel.

Arguments Returned {A} a w.
Arguments Raised {A} w.
Arguments OutOfFuel {A}.

Definition M (A : Type) : Type := world -> outcome A.

Definition ret {A} (a : A) : M A := fun w => Returned a w.

(** Sequencing: an exception of the first call leaves the second uncalled. *)
Definition bind {A B} (m : M A) (k : A -> M B) : M B :=
  fun w => match m w with
           | Returned a w' => k a w'
           | Raised w' => Raised w'
           | OutOfFuel => OutOfFuel
           end.

Definition diverge {A} : M A := fun _ => OutOfFuel.

Notation "x <- m ;; k" := (bind m (fun x => k))
  (at level 61, m at next level, right associativity).
Notation "m ;;; k" := (bind m (fun _ => k))
  (at level 61, right associativity).

Definition get_todos : M (list todo) := fun w => Returned (todos w) w.

Definition set_todos (l : list todo) : M unit :=
  fun w => Returned tt (mkWorld l (console w) (clock w) (ticks w) (file w)
                                (print_raises w)).

(** [console.print(...)] of a message, and [parser.print_help()]. *)
Definition print (m : msg) : M unit :=
  fun w => if raises w m then Raised w
           else Returned tt (mkWorld (todos w) (console w ++ [m]) (clock w) (ticks w)
                                     (file w) (print_raises w)).

(** [datetime.now().strftime("%Y-%m-%d %H:%M:%S")] *)
Definition now : M string :=
  fun w => Returned (clock w (ticks w))
                    (mkWorld (todos w) (console w) (clock w) (S (ticks w)) (file w)
                             (print_raises w)).

Definition lift {A} (o : option A) : M A :=
  match o with
  | Some a => ret a
  | None => diverge
  end.

(** ** Lookup and in-place updates *)

(** [find_todo_by_id]: the first dictionary of the list whose ["id"] is
    [todo_id].  Python returns the list's own element, not a copy. *)
Fixpoint find_todo_by_id (l : list todo) (todo_id : Z) : option todo :=
  match l with
  | [] => None
  | t :: r => if id t =? todo_id then Some t else find_todo_by_id r todo_id
  end.

(** Writing keys of the dictionary returned by [find_todo_by_id] rewrites,
    in place, the first element of the list with that id.  The elements of
    the list are distinct objects (each comes from [json.load] or from a
    dictionary display in [add_todos]), so no other element changes. *)
Fixpoint assign_found (l : list todo) (todo_id : Z) (f : todo -> todo) : list todo :=
  match l with
  | [] => []
  | t :: r => if id t =? todo_id then f t :: r
              else t :: assign_found r todo_id f
  end.

(** [l.remove(x)]: drops the first element equal to [x]. *)
Fixpoint list_remove (l : list todo) (x : todo) : list todo :=
  match l with
  | [] => []
  | t :: r => if todo_eqb t x then r else t :: list_remove r x
  end.

Definition set_task (name : string) (t : todo) : todo :=
  mkTodo (id t) name (done t) (created_at t) (completed_at t).

Definition set_completed (stamp : string) (t : todo) : todo :=
  mkTodo (id t) (task t) true (created_at t) (Some stamp).

Definition set_pending (t : todo) : todo :=
  mkTodo (id t) (task t) false (created_at t) None.

(** ** Listing *)

Definition status_filter (filter_status : option string) (l : list todo) : list todo :=
  match filter_status with
  | Some s =>
      if String.eqb s "completed" then filter (fun t => done t) l
      else if String.eqb s "pending" then filter (fun t => negb (done t)) l
      else l
  | None => l
  end.

(** [if search_term:] is false for [None] and for the empty string. *)
Definition search_filter (search_term : option string) (l : list todo) : list todo :=
  match search_term with
  | Some (String c s) =>
      let term := PyStr.lower (String c s) in
      filter (fun t => PyStr.str_in term (PyStr.lower (task t))) l
  | _ => l
  end.

(** The cells of a row: [str(todo["id"])], the label, the status, the
    creation time and the completion time (blank for a pending task). *)
Definition table_row (t : todo) : row :=
  mkRow (PyStr.str_int (id t)) (task t) (done t) (created_at t)
        (if done t then completed_at t else Some EmptyString).

Definition list_todos (filter_status search_term : option string) : M unit :=
  l <- get_todos ;;
  match l with
  | [] => print ListEmpty
  | _ :: _ =>
      let filtered_todos := search_filter search_term (status_filter filter_status l) in
      match filtered_todos with
      | [] => print NoTasksFound
      | _ :: _ => print (PrintTable (map table_row filtered_todos))
      end
  end.

(** ** Adding *)

(** [any(todo["task"] == name for todo in todos)] *)
Definition name_taken (l : list todo) (name : string) : bool :=
  existsb (fun t => String.eqb (task t) name) l.

(** [f"{original_task_name} ({counter})"] *)
Definition numbered (original_task_name : string) (counter : nat) : string :=
  (original_task_name ++ " (" ++ PyStr.str_nat counter ++ ")")%string.

(** The [while] loop of [add_todos]; one unit of fuel per test of its
    condition, [None] when the fuel runs out. *)
Fixpoint unique_name_loop (fuel : nat) (l : list todo)
         (original_task_name task_name_to_add : string) (counter : nat)
  : option string :=
  match fuel with
  | O => None
  | S fuel' =>
      if name_taken l task_name_to_add
      then unique_name_loop fuel' l original_task_name
                            (numbered original_task_name counter) (S counter)
      else Some task_name_to_add
  end.

(** [max((todo["id"] for todo in todos), default=0)] *)
Definition max_id (l : list todo) : Z :=
  match l with
  | [] => 0
  | t :: r => fold_left (fun m x => Z.max m (id x)) r (id t)
  end.

Definition add_one (new_task_name : string) : M unit :=
  l <- get_todos ;;
  task_name_to_add <-
    lift (unique_name_loop (S (List.length l)) l new_task_name new_task_name 1) ;;
  let new_id := max_id l + 1 in
  stamp <- now ;;
  set_todos (l ++ [mkTodo new_id task_name_to_add false stamp None]) ;;;
  print (AddedTask task_name_to_add).

Fixpoint add_todos (new_tasks : list string) : M unit :=
  match new_tasks with
  | [] => ret tt
  | new_task_name :: rest => add_one new_task_name ;;; add_todos rest
  end.

Definition repeat_task (todo_id repeat_count : Z) : M bool :=
  l <- get_todos ;;
  match find_todo_by_id l todo_id with
  | None => print (NotFound todo_id) ;;; ret false
  | Some original_todo =>
      let tasks_to_add := repeat (task original_todo) (Z.to_nat repeat_count) in
      add_todos tasks_to_add ;;;
      print (Repeated (task original_todo) repeat_count) ;;;
      ret true
  end.

(** ** Removing *)

Definition remove_todo (todo_id : Z) : M bool :=
  l <- get_todos ;;
  match find_todo_by_id l todo_id with
  | Some todo_to_remove =>
      set_todos (list_remove l todo_to_remove) ;;;
      print (RemovedTask (task todo_to_remove)) ;;;
      ret true
  | None => print (NotFound todo_id) ;;; ret false
  end.

Definition remove_all_todos : M bool :=
  l <- get_todos ;;
  match l with
  | [] => print AlreadyEmpty ;;; ret false
  | _ :: _ => set_todos [] ;;; print AllRemoved ;;; ret true
  end.

(** ** Completion state *)

Definition complete_todo (todo_id : Z) : M bool :=
  l <- get_todos ;;
  match find_todo_by_id l todo_id with
  | Some todo_to_update =>
      (if negb (done todo_to_update) then
         stamp <- now ;;
         set_todos (assign_found l todo_id (set_completed stamp)) ;;;
         print (MarkedCompleted (task todo_to_update))
       else print (AlreadyCompleted (task todo_to_update))) ;;;
      ret true
  | None => print (NotFound todo_id) ;;; ret false
  end.

Definition complete_all_todos : M bool :=
  l <- get_todos ;;
  match l with
  | [] => print EmptyNoComplete ;;; ret false
  | _ :: _ =>
      stamp <- now ;;
      set_todos (map (fun t => if negb (done t) then set_completed stamp t else t) l) ;;;
      print AllCompleted ;;;
      ret true
  end.

Definition pending_todo (todo_id : Z) : M bool :=
  l <- get_todos ;;
  match find_todo_by_id l todo_id with
  | Some todo_to_update =>
      (if done todo_to_update then
         set_todos (assign_found l todo_id set_pending) ;;;
         print (MarkedPending (task todo_to_update))
       else print (AlreadyPending (task todo_to_update))) ;;;
      ret true
  | None => print (NotFound todo_id) ;;; ret false
  end.

Definition pending_all_todos : M bool :=
  l <- get_todos ;;
  match l with
  | [] => print EmptyNoPending ;;; ret false
  | _ :: _ =>
      set_todos (map set_pending l) ;;;
      print AllPending ;;;
      ret true
  end.

(** ** Renaming *)

Definition update_todo (todo_id : Z) (new_name : string) : M bool :=
  l <- get_todos ;;
  match find_todo_by_id l todo_id with
  | Some todo_to_update =>
      let old_name := task todo_to_update in
      set_todos (assign_found l todo_id (set_task new_name)) ;;;
      print (NameUpdated old_name new_name) ;;;
      ret true
  | None => print (NotFound todo_id) ;;; ret false
  end.

(** ** The data file *)

(** [load_todos]: the content of the file, or the empty list when the file
    is absent or is not JSON.  The result becomes the list [todos]. *)
Definition load_todos : M unit :=
  fun w => Returned tt (mkWorld (match file w with Some l => l | None => [] end)
                                (console w) (clock w) (ticks w) (file w)
                                (print_raises w)).

(** [json.dump] raises on an integer above the digit limit; the other
    values of a task (ASCII texts, booleans, null) are always written. *)
Definition dump_raises (l : list todo) : bool :=
  existsb (fun t => PyStr.too_long (id t)) l.

(** [save_todos(todos)]: [open] with mode ["w"] empties the file, then
    [json.dump] streams the list into it.  When [json.dump] raises, the
    file is left with the text written so far, which is not JSON. *)
Definition save_todos : M unit :=
  fun w => if dump_raises (todos w)
           then Raised (mkWorld (todos w) (console w) (clock w) (ticks w)
                                None (print_raises w))
           else Returned tt (mkWorld (todos w) (console w) (clock w) (ticks w)
                                     (Some (todos w)) (print_raises w)).

(** ** The command line *)

(** [valid_positive_integer]: [inl] carries the message of the
    [ArgumentTypeError] that is raised. *)
Definition valid_positive_integer (value : string) : msg + Z :=
  match PyStr.int value with
  | Some ivalue =>
      if ivalue <? 1 then inl (ErrorNotPositive value) else inr ivalue
  | None => inl (ErrorNotInteger value)
  end.

(** The strings that [argparse] collected for each option of [get_parser],
    before any [type=] conversion. *)
Record cmdline := mkCmdline {
  opt_list : bool;
  opt_list_completed : bool;
  opt_list_pending : bool;
  opt_search : option string;
  opt_add : option (list string);
  opt_remove : option (list string);
  opt_remove_all : bool;
  opt_complete : option (list string);
  opt_complete_all : bool;
  opt_pending : option (list string);
  opt_pending_all : bool;
  opt_update : option (string * string);
  opt_repeat : option (string * string)
}.

(** The namespace returned by [parser.parse_args()]. *)
Record namespace := mkNamespace {
  args_list : bool;
  args_list_completed : bool;
  args_list_pending : bool;
  args_search : option string;
  args_add : option (list string);
  args_remove : option (list Z);
  args_remove_all : bool;
  args_complete : option (list Z);
  args_complete_all : bool;
  args_pending : option (list Z);
  args_pending_all : bool;
  args_update : option (string * string);
  args_repeat : option (string * string)
}.

Definition given {A} (o : option A) : nat :=
  match o with Some _ => 1%nat | None => 0%nat end.
Definition flag (b : bool) : nat := if b then 1%nat else 0%nat.

(** Each of the two groups of [get_parser] is mutually exclusive. *)
Definition groups_ok (c : cmdline) : bool :=
  ((flag (opt_list c) + flag (opt_list_completed c) + flag (opt_list_pending c)
    + given (opt_search c) <=? 1)
   && (given (opt_add c) + given (opt_remove c) + flag (opt_remove_all c)
       + given (opt_complete c) + flag (opt_complete_all c)
       + given (opt_pending c) + flag (opt_pending_all c)
       + given (opt_update c) + given (opt_repeat c) <=? 1))%nat.

(** [type=int] applied to every value of an option. *)
Fixpoint ints (values : list string) : option (list Z) :=
  match values with
  | [] => Some []
  | v :: r =>
      match PyStr.int v, ints r with
      | Some i, Some l => Some (i :: l)
      | _, _ => None
      end
  end.

(** An option with [nargs="+"]: at least one value.  The outer [None] is a
    rejected command line. *)
Definition plus {A B} (conv : list A -> option (list B)) (o : option (list A))
  : option (option (list B)) :=
  match o with
  | None => Some None
  | Some [] => None
  | Some l => option_map Some (conv l)
  end.

(** [parse_args]: [None] when [argparse] rejects the command line (it then
    prints the usage and exits with status 2). *)
Definition parse_args (c : cmdline) : option namespace :=
  if groups_ok c then
    match plus Some (opt_add c), plus ints (opt_remove c),
          plus ints (opt_complete c), plus ints (opt_pending c) with
    | Some a, Some r, Some cp, Some p =>
        Some (mkNamespace (opt_list c) (opt_list_completed c) (opt_list_pending c)
                          (opt_search c) a r (opt_remove_all c) cp
                          (opt_complete_all c) p (opt_pending_all c)
                          (opt_update c) (opt_repeat c))
    | _, _, _, _ => None
    end
  else None.

(** [for todo_id in ids: action_taken = op(todos, todo_id) or action_taken] *)
Fixpoint for_each_id (op : Z -> M bool) (ids : list Z) (action_taken : bool) : M bool :=
  match ids with
  | [] => ret action_taken
  | todo_id :: r =>
      b <- op todo_id ;;
      for_each_id op r (b || action_taken)
  end.

(** The end of [main]; the exit status of a run that reaches it is 0. *)
Definition finish (action_taken : bool) : M Z :=
  (if action_taken then print UpdatedList ;;; list_todos None None else ret tt) ;;;
  ret 0.

Definition truthy_str (o : option string) : option string :=
  match o with
  | Some (String c s) => Some (String c s)
  | _ => None
  end.

Definition truthy_list {A} (o : option (list A)) : option (list A) :=
  match o with
  | Some (x :: l) => Some (x :: l)
  | _ => None
  end.

(** The [if]/[elif] chain of [main], after [todos = load_todos()]. *)
Definition dispatch (args : namespace) : M Z :=
  if args_list args then list_todos None None ;;; finish false
  else if args_list_completed args then
    list_todos (Some "completed"%string) None ;;; finish false
  else if args_list_pending args then
    list_todos (Some "pending"%string) None ;;; finish false
  else match truthy_str (args_search args) with
  | Some term => list_todos None (Some term) ;;; finish false
  | None =>
  match truthy_list (args_add args) with
  | Some new_tasks => add_todos new_tasks ;;; save_todos ;;; finish true
  | None =>
  match args_remove args with
  | Some ids => b <- for_each_id remove_todo ids false ;; save_todos ;;; finish b
  | None =>
  if args_remove_all args then b <- remove_all_todos ;; save_todos ;;; finish b
  else match args_complete args with
  | Some ids => b <- for_each_id complete_todo ids false ;; save_todos ;;; finish b
  | None =>
  if args_complete_all args then b <- complete_all_todos ;; save_todos ;;; finish b
  else match args_pending args with
  | Some ids => b <- for_each_id pending_todo ids false ;; save_todos ;;; finish b
  | None =>
  if args_pending_all args then b <- pending_all_todos ;; save_todos ;;; finish b
  else match args_update args with
  | Some (value, new_name) =>
      match valid_positive_integer value with
      | inr todo_id => b <- update_todo todo_id new_name ;; save_todos ;;; finish b
      | inl e => print e ;;; ret 1
      end
  | None =>
  match args_repeat args with
  | Some (value, count_value) =>
      match valid_positive_integer value with
      | inr todo_id =>
          match valid_positive_integer count_value with
          | inr count => b <- repeat_task todo_id count ;; save_todos ;;; finish b
          | inl e => print e ;;; ret 1
          end
      | inl e => print e ;;; ret 1
      end
  | None => print Help ;;; finish false
  end end end end end end end.

(** [main]: the result is the exit status of the process. *)
Definition main (argv : cmdline) : M Z :=
  match parse_args argv with
  | None => print UsageError ;;; ret 2
  | Some args => load_todos ;;; dispatch args
  end.

(** ** Operations and runs *)

(** The operations of the task store, as [main] invokes them. *)
Inductive op :=
| Add (new_tasks : list string)
| Remove (todo_id : Z)
| RemoveAll
| Complete (todo_id : Z)
| Pending (todo_id : Z)
| CompleteAll
| PendingAll
| Update (todo_id : Z) (new_name : string)
| Repeat (todo_id : Z) (repeat_count : Z).

Definition run_op (o : op) : M bool :=
  match o with
  | Add new_tasks => add_todos new_tasks ;;; ret true
  | Remove todo_id => remove_todo todo_id
  | RemoveAll => remove_all_todos
  | Complete todo_id => complete_todo todo_id
  | Pending todo_id => pending_todo todo_id
  | CompleteAll => complete_all_todos
  | PendingAll => pending_all_todos
  | Update todo_id new_name => update_todo todo_id new_name
  | Repeat todo_id repeat_count => repeat_task todo_id repeat_count
  end.

Fixpoint run_ops (ops : list op) : M unit :=
  match ops with
  | [] => ret tt
  | o :: r => run_op o ;;; run_ops r
  end.

Definition is_add_or_remove (o : op) : bool :=
  match o with
  | Add _ | Remove _ => true
  | _ => false
  end.

(** The ids of the records that one operation appended. *)
Definition new_ids (o : op) (before after : world) : list Z :=
  match o with
  | Add _ | Repeat _ _ =>
      map id (skipn (List.length (todos before)) (todos after))
  | _ => []
  end.

(** The ids handed out during a run, in the order of assignment. *)
Fixpoint assigned_ids (ops : list op) (w : world) : list Z :=
  match ops with
  | [] => []
  | o :: r =>
      match run_op o w with
      | Returned _ w' => new_ids o w w' ++ assigned_ids r w'
      | _ => []
      end
  end.

(** An environment in which rich refuses every message whose texts hold a
    bracket: what rich does of a text such as [/x], and a stand-in for it
    on the plain texts of the examples, where rich is not consulted. *)
Definition rich_strict : msg -> bool := fun _ => true.

(** An environment in which rich accepts the messages and refuses the
    table: what rich does of a label such as [/bold green][bold green],
    which closes and reopens the tag of a message around it and closes
    nothing in a cell of the table. *)
Definition rich_table_strict : msg -> bool :=
  fun m => match m with PrintTable _ => true | _ => false end.

(** A world whose list of tasks is empty. *)
Definition empty_world (clk : nat -> string) (f : option (list todo)) : world :=
  mkWorld [] [] clk 0 f rich_strict.

(** ** Notions used by the statements *)

(** The k-th name tested by the loop of [add_todos]: the proposed name,
    then the proposed name with the suffixes (1), (2), ... *)
Definition candidate (original_task_name : string) (k : nat) : string :=
  match k with
  | O => original_task_name
  | S _ => numbered original_task_name k
  end.

(** [k] is the first index whose candidate is carried by no record of [l]. *)
Definition first_free (l : list todo) (original_task_name : string) (k : nat) : Prop :=
  name_taken l (candidate original_task_name k) = false /\
  forall i, (i < k)%nat -> name_taken l (candidate original_task_name i) = true.

(** Every record of [added] carries a label that no record before it in
    [l ++ added] carries. *)
Fixpoint added_fresh (l added : list todo) : Prop :=
  match added with
  | [] => True
  | x :: r => name_taken l (task x) = false /\ added_fresh (l ++ [x]) r
  end.

(** [completed_at] is non-null exactly when [done] is true. *)
Definition completion_consistent (t : todo) : Prop :=
  completed_at t <> None <-> done t = true.

(** The pending state of the state machine: not done, no completion time. *)
Definition is_pending_state (t : todo) : Prop :=
  done t = false /\ completed_at t = None.







(** Worlds after one effect *)

Definition w_todos (w : world) (l : list todo) : world :=
  mkWorld l (console w) (clock w) (ticks w) (file w) (print_raises w).

Definition w_print (w : world) (m : msg) : world :=
  mkWorld (todos w) (console w ++ [m]) (clock w) (ticks w) (file w)
          (print_raises w).

(** The outcome of printing [m] in [w] and then returning [a]. *)
Definition printed {A} (w : world) (m : msg) (a : A) : outcome A :=
  if raises w m then Raised w else Returned a (w_print w m).

(** The world that a call leaves behind, whether it returns or raises. *)
Definition leaves {A} (o : outcome A) (w : world) : Prop :=
  match o with
  | Returned _ w' | Raised w' => w' = w
  | OutOfFuel => False
  end.

(** The exit status of a process whose [main] ends in [o]: the status that
    [main] chose, or 1 after an uncaught exception. *)
Definition exit_status (o : outcome Z) : option Z :=
  match o with
  | Returned code _ => Some code
  | Raised _ => Some 1
  | OutOfFuel => None
  end.

Definition w_tick (w : world) : world :=
  mkWorld (todos w) (console w) (clock w) (S (ticks w)) (file w) (print_raises w).

(** The record that [add_todos] builds for the k-th candidate. *)
Definition new_todo (w : world) (original_task_name : string) (k : nat) : todo :=
  mkTodo (max_id (todos w) + 1) (candidate original_task_name k) false
         (clock w (ticks w)) None.

(** The world once the record is appended, and once it is confirmed. *)
Definition appended (w : world) (original_task_name : string) (k : nat) : world :=
  mkWorld (todos w ++ [new_todo w original_task_name k]) (console w)
          (clock w) (S (ticks w)) (file w) (print_raises w).

Definition added (w : world) (original_task_name : string) (k : nat) : world :=
  mkWorld (todos w ++ [new_todo w original_task_name k])
          (console w ++ [AddedTask (candidate original_task_name k)])
          (clock w) (S (ticks w)) (file w) (print_raises w).

(** [adds new_tasks w w']: [w'] is [w] after the names of [new_tasks] were
    added one by one, each under its first free candidate, each confirmation
    being printed without an exception. *)
Inductive adds : list string -> world -> world -> Prop :=
| adds_nil w : adds [] w w
| adds_cons name rest k w w' :
    first_free (todos w) name k ->
    raises w (AddedTask (candidate name k)) = false ->
    adds rest (added w name k) w' ->
    adds (name :: rest) w w'.

(** Operations that delete records. *)
Definition removes (o : op) : bool :=
  match o with
  | Remove _ | RemoveAll => true
  | _ => false
  end.

(** Two tasks are added, the second is removed, a third is added. *)
Definition reuse_run : list op :=
  [Add ["a"%string; "b"%string]; Remove 2; Add ["c"%string]].

Definition silent_clock : nat -> string := fun _ => EmptyString.

(** The world once [main] has bound [todos] to the loaded list. *)
Definition w_load (w : world) : world :=
  mkWorld (match file w with Some l => l | None => [] end)
          (console w) (clock w) (ticks w) (file w) (print_raises w).

Definition w_save (w : world) : world :=
  mkWorld (todos w) (console w) (clock w) (ticks w) (Some (todos w))
          (print_raises w).

(** The world once [json.dump] has raised in [save_todos]. *)
Definition w_spoil (w : world) : world :=
  mkWorld (todos w) (console w) (clock w) (ticks w) None (print_raises w).


(** A data file with the one task labelled ["a"], where rich refuses the
    table. *)
Definition restyled_file : world :=
  mkWorld [] [] silent_clock 0 (Some [mkTodo 1 "a" false "" None])
          rich_table_strict.

(** Command lines that give one option. *)
Definition add_cmd (names : list string) : cmdline :=
  mkCmdline false false false None (Some names) None false None false None false
            None None.

Definition remove_cmd (values : list string) : cmdline :=
  mkCmdline false false false None None (Some values) false None false None false
            None None.

Definition complete_cmd (values : list string) : cmdline :=
  mkCmdline false false false None None None false (Some values) false None false
            None None.

Definition pending_cmd (values : list string) : cmdline :=
  mkCmdline false false false None None None false None false (Some values) false
            None None.

Definition update_cmd (value new_name : string) : cmdline :=
  mkCmdline false false false None None None false None false None false
            (Some (value, new_name)) None.

Definition repeat_cmd (value count_value : string) : cmdline :=
  mkCmdline false false false None None None false None false None false
            None (Some (value, count_value)).

(** A store in which the label ["a"] is taken. *)
Definition one_task_world : world :=
  mkWorld [mkTodo 1 "a" false "" None] [] silent_clock 0 None rich_strict.

(** A store whose only record carries a closing tag for its label, in an
    environment where rich refuses it. *)
Definition markup_world : world :=
  mkWorld [mkTodo 1 "[/x]" false "" None] [] silent_clock 0 None rich_strict.

(** A store whose only record is labelled ["foo"]. *)
Definition foo_world : world :=
  mkWorld [mkTodo 1 "foo" false "" None] [] silent_clock 0 None rich_strict.

(** [m] ends, without having written the data file, and when it returns
    it has kept the property [P] of the list of tasks. *)
Definition keeps {A} (P : list todo -> Prop) (m : M A) : Prop :=
  forall w,
    match m w with
    | Returned _ w' => file w' = file w /\ (P (todos w) -> P (todos w'))
    | Raised w' => file w' = file w
    | OutOfFuel => False
    end.

(** The data file of [after], compared with the one of [before]: not
    written; or holding the list of [after], which has the property [P] when
    the list of [before] had it; or spoiled by a [json.dump] that raised. *)
Definition file_fate (P : list todo -> Prop) (before after : world) : Prop :=
  file after = file before \/
  (file after = Some (todos after) /\ (P (todos before) -> P (todos after))) \/
  (file after = None /\ dump_raises (todos after) = true).

(** What the program maintains in the data file: ids strictly increasing
    along the list, completion times consistent with the flags. *)
Definition well_kept (l : list todo) : Prop :=
  StronglySorted Z.lt (map id l) /\ Forall completion_consistent l.



(** A world whose data file holds the one task labelled ["a"]. *)
Definition one_task_file : world :=
  mkWorld [] [] silent_clock 0 (Some [mkTodo 1 "a" false "" None]) rich_strict.

(** The id of [t] is among [ids]. *)
Definition listed (ids : list Z) (t : todo) : bool :=
  existsb (Z.eqb (id t)) ids.

(** Some record of [l] has the id [i]. *)
Definition present (l : list todo) (i : Z) : bool :=
  existsb (fun t => id t =? i) l.

(** A data file with three tasks. *)
Definition three_task_file : world :=
  mkWorld [] [] silent_clock 0
          (Some [mkTodo 1 "a" false "" None; mkTodo 2 "b" false "" None;
                 mkTodo 3 "c" false "" None]) rich_strict.

(** The number that [PyStr.digits] accumulates over the digits of [d],
    starting from [acc]. *)
Fixpoint uint_value (d : Decimal.uint) (acc : Z) : Z :=
  match d with
  | Decimal.Nil => acc
  | Decimal.D0 d => uint_value d (10 * acc)
  | Decimal.D1 d => uint_value d (10 * acc + 1)
  | Decimal.D2 d => uint_value d (10 * acc + 2)
  | Decimal.D3 d => uint_value d (10 * acc + 3)
  | Decimal.D4 d => uint_value d (10 * acc + 4)
  | Decimal.D5 d => uint_value d (10 * acc + 5)
  | Decimal.D6 d => uint_value d (10 * acc + 6)
  | Decimal.D7 d => uint_value d (10 * acc + 7)
  | Decimal.D8 d => uint_value d (10 * acc + 8)
  | Decimal.D9 d => uint_value d (10 * acc + 9)
  end.


(** The list of tasks that an operation leaves when it returns. *)
Definition store_after (o : op) (w : world) (l' : list todo) : Prop :=
  match o with
  | Add new_tasks => exists w1, adds new_tasks w w1 /\ l' = todos w1
  | Remove todo_id =>
      l' = match find_todo_by_id (todos w) todo_id with
           | Some t => list_remove (todos w) t
           | None => todos w
           end
  | RemoveAll => l' = []
  | Complete todo_id =>
      l' = match find_todo_by_id (todos w) todo_id with
           | Some t => if done t then todos w
                       else assign_found (todos w) todo_id
                                         (set_completed (clock w (ticks w)))
           | None => todos w
           end
  | Pending todo_id =>
      l' = match find_todo_by_id (todos w) todo_id with
           | Some t => if done t then assign_found (todos w) todo_id set_pending
                       else todos w
           | None => todos w
           end
  | CompleteAll =>
      l' = map (fun t => if negb (done t)
                         then set_completed (clock w (ticks w)) t else t) (todos w)
  | PendingAll => l' = map set_pending (todos w)
  | Update todo_id new_name =>
      l' = match find_todo_by_id (todos w) todo_id with
           | Some _ => assign_found (todos w) todo_id (set_task new_name)
           | None => todos w
           end
  | Repeat todo_id repeat_count =>
      match find_todo_by_id (todos w) todo_id with
      | Some t => exists w1, adds (repeat (task t) (Z.to_nat repeat_count)) w w1 /\
                             l' = todos w1
      | None => l' = todos w
      end
  end.

(** A text without an opening bracket, in which rich finds no tag. *)
Definition plain (s : string) : Prop := PyStr.has_bracket s = false.

(** A store whose labels are plain. *)
Definition plain_store (l : list todo) : Prop := Forall (fun t => plain (task t)) l.

(** A record that the table can show: its id is within the digit limit
    and its texts are plain. *)
Definition printable (t : todo) : Prop :=
  PyStr.too_long (id t) = false /\ plain (task t) /\ plain (created_at t) /\
  match completed_at t with Some s => plain s | None => True end.

(** The message of a listing that shows the records [shown] of the store
    [l]. *)
Definition listing (l shown : list todo) : msg :=
  match l, shown with
  | [], _ => ListEmpty
  | _ :: _, [] => NoTasksFound
  | _ :: _, _ :: _ => PrintTable (map table_row shown)
  end.

(** An operation whose arguments cannot make a message fail: the labels it
    brings are plain and its integers are within the digit limit. *)
Definition plain_op (o : op) : Prop :=
  match o with
  | Add new_tasks => Forall plain new_tasks
  | Remove todo_id | Complete todo_id | Pending todo_id =>
      PyStr.too_long todo_id = false
  | RemoveAll | CompleteAll | PendingAll => True
  | Update todo_id new_name => PyStr.too_long todo_id = false /\ plain new_name
  | Repeat todo_id repeat_count =>
      PyStr.too_long todo_id = false /\ PyStr.too_long repeat_count = false
  end.

(** * Properties *)

(** ** Strings *)

Lemma append_nil_r (s : string) : (s ++ "")%string = s.
Proof. induction s; simpl; congruence. Qed.

Lemma append_assoc (a b c : string) : ((a ++ b) ++ c)%string = (a ++ b ++ c)%string.
Proof. induction a; simpl; congruence. Qed.

Lemma append_length (a b : string) :
  String.length (a ++ b) = (String.length a + String.length b)%nat.
Proof. induction a; simpl; congruence. Qed.

Lemma append_inv_head (a b c : string) : (a ++ b)%string = (a ++ c)%string -> b = c.
Proof. induction a; simpl; intros H; [assumption | injection H; auto]. Qed.

Lemma append_char_inj (a b : string) (c : ascii) :
  (a ++ String c "")%string = (b ++ String c "")%string -> a = b.
Proof.
  revert b. induction a as [|x a IH]; intros [|y b]; simpl; intros H.
  - reflexivity.
  - injection H as _ H. destruct b; discriminate.
  - injection H as _ H. destruct a; discriminate.
  - injection H as -> H. f_equal. auto.
Qed.

Lemma str_nat_inj (j k : nat) : PyStr.str_nat j = PyStr.str_nat k -> j = k.
Proof.
  unfold PyStr.str_nat. intros H.
  apply DecimalNat.Unsigned.to_uint_inj.
  assert (E : forall n, NilZero.uint_of_string (NilZero.string_of_uint (Nat.to_uint n))
                        = Some (Nat.to_uint n)).
  { intros n. apply NilZero.usu. destruct n; [discriminate|].
    intros E. apply (f_equal Nat.of_uint) in E.
    rewrite DecimalNat.Unsigned.of_to in E. discriminate. }
  pose proof (E j) as Ej. rewrite H, E in Ej. congruence.
Qed.

Lemma numbered_inj (o : string) (j k : nat) : numbered o j = numbered o k -> j = k.
Proof.
  unfold numbered. intros H.
  apply append_inv_head in H. apply (append_inv_head " (") in H.
  apply append_char_inj in H. now apply str_nat_inj.
Qed.

Lemma numbered_neq (o : string) (k : nat) : numbered o k <> o.
Proof.
  unfold numbered. intros H. apply (f_equal String.length) in H.
  rewrite append_length in H. simpl in H. lia.
Qed.

Lemma candidate_inj (o : string) (j k : nat) : candidate o j = candidate o k -> j = k.
Proof.
  destruct j, k; simpl; intros H; auto.
  - symmetry in H. now apply numbered_neq in H.
  - now apply numbered_neq in H.
  - now apply numbered_inj in H.
Qed.

(** ** The loop that resolves duplicate names *)

Lemma name_taken_iff (l : list todo) (name : string) :
  name_taken l name = true <-> In name (map task l).
Proof.
  unfold name_taken. rewrite existsb_exists, in_map_iff. split.
  - intros (t & Hin & E). apply String.eqb_eq in E. eauto.
  - intros (t & E & Hin). exists t. split; [assumption|]. now apply String.eqb_eq.
Qed.

Lemma name_taken_app (l1 l2 : list todo) (name : string) :
  name_taken (l1 ++ l2) name = name_taken l1 name || name_taken l2 name.
Proof. unfold name_taken. apply existsb_app. Qed.

(** Starting at the test of candidate [j], the loop stops at the first free
    candidate [j + m], provided the fuel covers the [m + 1] tests. *)
Lemma unique_name_loop_steps (l : list todo) (o : string) (m : nat) :
  forall (j fuel : nat),
    (forall i, (j <= i < j + m)%nat -> name_taken l (candidate o i) = true) ->
    name_taken l (candidate o (j + m)) = false ->
    (m < fuel)%nat ->
    unique_name_loop fuel l o (candidate o j) (S j) = Some (candidate o (j + m)).
Proof.
  induction m as [|m IH]; intros j fuel Htaken Hfree Hfuel.
  - destruct fuel as [|fuel]; [lia|]. simpl.
    rewrite Nat.add_0_r in Hfree. rewrite Hfree. now rewrite Nat.add_0_r.
  - destruct fuel as [|fuel]; [lia|]. simpl.
    rewrite (Htaken j) by lia.
    change (numbered o (S j)) with (candidate o (S j)).
    rewrite (IH (S j) fuel).
    + f_equal. f_equal. lia.
    + intros i Hi. apply Htaken. lia.
    + replace (S j + m)%nat with (j + S m)%nat by lia. assumption.
    + lia.
Qed.

(** A bounded search either finds a free candidate or sees them all taken. *)
Lemma least_free_or_all_taken (l : list todo) (o : string) (n : nat) :
  (exists k, (k < n)%nat /\ first_free l o k) \/
  (forall i, (i < n)%nat -> name_taken l (candidate o i) = true).
Proof.
  induction n as [|n [(k & Hk & Hf) | Hall]].
  - right. intros i Hi. lia.
  - left. exists k. split; [lia | assumption].
  - destruct (name_taken l (candidate o n)) eqn:E.
    + right. intros i Hi. destruct (Nat.eq_dec i n) as [-> | Hne]; [assumption|].
      apply Hall. lia.
    + left. exists n. split; [lia|]. split; assumption.
Qed.

(** Pigeonhole: among the first [length l + 1] candidates one is free. *)
Lemma first_free_exists (l : list todo) (o : string) :
  exists k, (k <= List.length l)%nat /\ first_free l o k.
Proof.
  destruct (least_free_or_all_taken l o (S (List.length l))) as [(k & Hk & Hf) | Hall].
  - exists k. split; [lia | assumption].
  - exfalso.
    assert (Hnd : NoDup (map (candidate o) (seq 0 (S (List.length l))))).
    { apply Injective_map_NoDup; [|apply seq_NoDup].
      intros a b. apply candidate_inj. }
    assert (Hincl : incl (map (candidate o) (seq 0 (S (List.length l)))) (map task l)).
    { intros s Hs. apply in_map_iff in Hs as (i & <- & Hi). apply in_seq in Hi.
      apply name_taken_iff. apply Hall. lia. }
    pose proof (NoDup_incl_length Hnd Hincl) as Hlen.
    rewrite !length_map, length_seq in Hlen. lia.
Qed.

Lemma first_free_unique (l : list todo) (o : string) (j k : nat) :
  first_free l o j -> first_free l o k -> j = k.
Proof.
  intros [Hj Hj'] [Hk Hk'].
  destruct (Nat.lt_trichotomy j k) as [H | [H | H]]; [|assumption|].
  - rewrite (Hk' j H) in Hj. discriminate.
  - rewrite (Hj' k H) in Hk. discriminate.
Qed.

(** The loop of [add_todos] terminates within the fuel it is given and
    returns the first free candidate. *)
Lemma unique_name_loop_first_free (l : list todo) (o : string) (k : nat) :
  first_free l o k ->
  unique_name_loop (S (List.length l)) l o o 1 = Some (candidate o k).
Proof.
  intros Hf.
  destruct (first_free_exists l o) as (k' & Hk' & Hf').
  assert (k' = k) by (eapply first_free_unique; eassumption). subst k'.
  destruct Hf as [Hfree Htaken].
  change o with (candidate o 0) at 2.
  apply (unique_name_loop_steps l o k 0 (S (List.length l))); simpl.
  - intros i Hi. apply Htaken. lia.
  - assumption.
  - lia.
Qed.

(** ** One run of each operation *)

Lemma add_one_run (name : string) (w : world) :
  exists k, first_free (todos w) name k /\
            add_one name w = printed (appended w name k)
                                     (AddedTask (candidate name k)) tt.
Proof.
  destruct (first_free_exists (todos w) name) as (k & _ & Hf).
  exists k. split; [assumption|].
  unfold add_one, bind, get_todos.
  rewrite (unique_name_loop_first_free _ _ _ Hf). reflexivity.
Qed.

(** [add_todos] returns exactly along [adds]. *)
Lemma add_todos_adds (new_tasks : list string) :
  forall w w', add_todos new_tasks w = Returned tt w' <-> adds new_tasks w w'.
Proof.
  induction new_tasks as [|name rest IH]; intros w w'.
  - split.
    + intros [= <-]. constructor.
    + intros H. inversion H; subst. reflexivity.
  - destruct (add_one_run name w) as (k & Hf & Hrun).
    simpl. unfold bind. rewrite Hrun. unfold printed.
    change (raises (appended w name k) (AddedTask (candidate name k)))
      with (raises w (AddedTask (candidate name k))).
    split.
    + destruct (raises w (AddedTask (candidate name k))) eqn:E; [discriminate|].
      intros H. apply IH in H. econstructor; eassumption.
    + intros H. inversion H as [| ? ? k' ? ? Hf' Hr' Hrest]; subst.
      assert (k' = k) by (eapply first_free_unique; eassumption). subst k'.
      rewrite Hr'. now apply IH.
Qed.

Lemma adds_deterministic (new_tasks : list string) (w w1 w2 : world) :
  adds new_tasks w w1 -> adds new_tasks w w2 -> w1 = w2.
Proof.
  intros H1 H2. apply add_todos_adds in H1, H2. congruence.
Qed.

(** ** Ids *)

Lemma fold_max_ge (r : list todo) : forall m, m <= fold_left (fun m x => Z.max m (id x)) r m.
Proof.
  induction r as [|x r IH]; intros m; simpl; [lia|].
  specialize (IH (Z.max m (id x))). lia.
Qed.

Lemma fold_max_in_ge (r : list todo) :
  forall m x, In x r -> id x <= fold_left (fun m x => Z.max m (id x)) r m.
Proof.
  induction r as [|y r IH]; intros m x Hin; simpl; [contradiction|].
  destruct Hin as [-> | Hin].
  - pose proof (fold_max_ge r (Z.max m (id x))). lia.
  - now apply IH.
Qed.

Lemma fold_max_attained (r : list todo) :
  forall m, fold_left (fun m x => Z.max m (id x)) r m = m \/
            exists x, In x r /\ id x = fold_left (fun m x => Z.max m (id x)) r m.
Proof.
  induction r as [|y r IH]; intros m; simpl; [now left|].
  destruct (IH (Z.max m (id y))) as [E | (x & Hin & E)].
  - rewrite E. destruct (Z.max_spec m (id y)) as [[_ ->] | [_ ->]].
    + right. exists y. auto.
    + now left.
  - right. exists x. auto.
Qed.

(** [max_id] is an upper bound of the ids of the list ... *)
Lemma max_id_ge (l : list todo) (x : todo) : In x l -> id x <= max_id l.
Proof.
  destruct l as [|t r]; simpl; [contradiction|].
  intros [-> | Hin].
  - apply fold_max_ge.
  - now apply fold_max_in_ge.
Qed.

(** ... and, on a list that is not empty, the id of one of its records. *)
Lemma max_id_attained (l : list todo) :
  l <> [] -> exists x, In x l /\ id x = max_id l.
Proof.
  destruct l as [|t r]; [congruence|]. intros _. simpl.
  destruct (fold_max_attained r (id t)) as [E | (x & Hin & E)].
  - exists t. split; [now left | now rewrite E].
  - exists x. split; [now right | assumption].
Qed.

Lemma sorted_snoc (l : list Z) (y : Z) :
  StronglySorted Z.lt l -> (forall x, In x l -> x < y) ->
  StronglySorted Z.lt (l ++ [y]).
Proof.
  induction 1 as [|a l Hs IH Hall]; intros Hlt; simpl.
  - repeat constructor.
  - constructor.
    + apply IH. intros x Hx. apply Hlt. now right.
    + apply Forall_app. split; [assumption|]. constructor; [|constructor].
      apply Hlt. now left.
Qed.

Lemma sorted_NoDup (l : list Z) : StronglySorted Z.lt l -> NoDup l.
Proof.
  induction 1 as [|a l Hs IH Hall]; constructor; [|assumption].
  intros Hin. rewrite Forall_forall in Hall. specialize (Hall a Hin). lia.
Qed.

(** ** Lookup, assignment through the found record, removal *)

Lemma find_none_iff (l : list todo) (i : Z) :
  find_todo_by_id l i = None <-> (forall t, In t l -> id t <> i).
Proof.
  induction l as [|x l IH]; simpl.
  - split; [intros _ t [] | reflexivity].
  - destruct (Z.eqb_spec (id x) i) as [E | N].
    + split; [discriminate|]. intros H. exfalso. apply (H x); auto.
    + rewrite IH. split.
      * intros H t [<- | Hin]; auto.
      * intros H t Hin. apply H. now right.
Qed.

(** The found record splits the list: nothing before it has the id. *)
Lemma find_some_split (l : list todo) (i : Z) (t : todo) :
  find_todo_by_id l i = Some t ->
  exists l1 l2, l = l1 ++ t :: l2 /\ id t = i /\ find_todo_by_id l1 i = None.
Proof.
  induction l as [|x l IH]; simpl; [discriminate|].
  destruct (Z.eqb_spec (id x) i) as [E | N].
  - intros [= ->]. exists [], l. auto.
  - intros H. destruct (IH H) as (l1 & l2 & -> & Hid & Hn).
    exists (x :: l1), l2. simpl. destruct (Z.eqb_spec (id x) i); [contradiction|]. auto.
Qed.

Lemma find_app_none (l1 l2 : list todo) (i : Z) :
  find_todo_by_id l1 i = None ->
  find_todo_by_id (l1 ++ l2) i = find_todo_by_id l2 i.
Proof.
  induction l1 as [|x l1 IH]; simpl; [reflexivity|].
  destruct (id x =? i); [discriminate | assumption].
Qed.

Lemma find_in (l : list todo) (t : todo) :
  In t l -> exists t0, find_todo_by_id l (id t) = Some t0 /\ id t0 = id t.
Proof.
  intros Hin. destruct (find_todo_by_id l (id t)) as [t0|] eqn:E.
  - exists t0. split; [reflexivity|].
    now destruct (find_some_split _ _ _ E) as (_ & _ & _ & Hid & _).
  - exfalso. rewrite find_none_iff in E. now apply (E t Hin).
Qed.

(** With unique ids, the record found under the id of [t] is [t] itself. *)
Lemma find_in_NoDup (l : list todo) (t : todo) :
  NoDup (map id l) -> In t l -> find_todo_by_id l (id t) = Some t.
Proof.
  induction l as [|x l IH]; simpl; [contradiction|].
  intros Hnd [-> | Hin].
  - now rewrite Z.eqb_refl.
  - inversion Hnd as [|? ? Hnotin Hnd']; subst.
    destruct (Z.eqb_spec (id x) (id t)) as [E | N]; [|auto].
    exfalso. apply Hnotin. rewrite E. now apply in_map.
Qed.

Lemma assign_found_split (l1 l2 : list todo) (t : todo) (f : todo -> todo) :
  find_todo_by_id l1 (id t) = None ->
  assign_found (l1 ++ t :: l2) (id t) f = l1 ++ f t :: l2.
Proof.
  induction l1 as [|x l1 IH]; simpl.
  - now rewrite Z.eqb_refl.
  - destruct (id x =? id t); [discriminate|]. intros H. now rewrite IH.
Qed.

Lemma assign_found_none (l : list todo) (i : Z) (f : todo -> todo) :
  find_todo_by_id l i = None -> assign_found l i f = l.
Proof.
  induction l as [|x l IH]; simpl; [reflexivity|].
  destruct (id x =? i); [discriminate|]. intros H. now rewrite IH.
Qed.

Lemma assign_found_ids (l : list todo) (i : Z) (f : todo -> todo) :
  (forall t, id (f t) = id t) -> map id (assign_found l i f) = map id l.
Proof.
  intros Hf. induction l as [|x l IH]; simpl; [reflexivity|].
  destruct (id x =? i); simpl; [now rewrite Hf | now rewrite IH].
Qed.

Lemma assign_found_Forall (P : todo -> Prop) (l : list todo) (i : Z) (f : todo -> todo) :
  (forall t, P t -> P (f t)) -> Forall P l -> Forall P (assign_found l i f).
Proof.
  intros Hf. induction 1 as [|x l Hx Hl IH]; simpl; [constructor|].
  destruct (id x =? i); constructor; auto.
Qed.

Lemma todo_eqb_refl (t : todo) : todo_eqb t t = true.
Proof.
  unfold todo_eqb. rewrite Z.eqb_refl, !String.eqb_refl, Bool.eqb_reflx.
  destruct (completed_at t); simpl; [apply String.eqb_refl | reflexivity].
Qed.

Lemma todo_eqb_id (a b : todo) : todo_eqb a b = true -> id a = id b.
Proof.
  unfold todo_eqb. rewrite !andb_true_iff. intros ((((H & _) & _) & _) & _).
  now apply Z.eqb_eq.
Qed.

(** [todos.remove] of the found record takes out exactly that record. *)
Lemma list_remove_split (l1 l2 : list todo) (t : todo) :
  find_todo_by_id l1 (id t) = None ->
  list_remove (l1 ++ t :: l2) t = l1 ++ l2.
Proof.
  induction l1 as [|x l1 IH]; simpl.
  - now rewrite todo_eqb_refl.
  - destruct (Z.eqb_spec (id x) (id t)) as [E | N]; [discriminate|].
    intros H. destruct (todo_eqb x t) eqn:Eq.
    + apply todo_eqb_id in Eq. contradiction.
    + now rewrite IH.
Qed.

Lemma list_remove_sorted (l : list todo) (x : todo) :
  StronglySorted Z.lt (map id l) -> StronglySorted Z.lt (map id (list_remove l x)).
Proof.
  induction l as [|t l IH]; simpl; intros Hs; [assumption|].
  inversion Hs as [|? ? Hs' Hall]; subst.
  destruct (todo_eqb t x); [assumption|]. simpl. constructor; [auto|].
  rewrite Forall_forall in *. intros y Hy. apply Hall.
  apply in_map_iff in Hy as (z & <- & Hz). apply in_map.
  clear - Hz. induction l as [|a l IH]; simpl in *; [contradiction|].
  destruct (todo_eqb a x); [now right|]. destruct Hz as [-> | Hz]; auto.
Qed.

Lemma list_remove_Forall (P : todo -> Prop) (l : list todo) (x : todo) :
  Forall P l -> Forall P (list_remove l x).
Proof.
  induction 1 as [|t l Ht Hl IH]; simpl; [constructor|].
  destruct (todo_eqb t x); [assumption | now constructor].
Qed.

(** ** The operations as equations on worlds *)

Lemma print_run (m : msg) (w : world) : print m w = printed w m tt.
Proof. reflexivity. Qed.

Lemma print_ret {A} (m : msg) (a : A) (w : world) :
  (print m ;;; ret a) w = printed w m a.
Proof. unfold bind, print, printed, ret. now destruct (raises w m). Qed.

(** A message with no bracket in its texts and no integer over the digit
    limit is printed. *)
Lemma raises_plain (w : world) (m : msg) :
  existsb PyStr.too_many_digits (msg_numbers m) = false ->
  existsb PyStr.has_bracket (msg_texts m) = false ->
  raises w m = false.
Proof. unfold raises. now intros -> ->. Qed.

Lemma raises_NotFound (w : world) (i : Z) : raises w (NotFound i) = PyStr.too_long i.
Proof.
  unfold raises, PyStr.too_long. simpl. now rewrite !orb_false_r.
Qed.

Lemma remove_todo_run (i : Z) (w : world) :
  remove_todo i w =
  match find_todo_by_id (todos w) i with
  | Some t => printed (w_todos w (list_remove (todos w) t)) (RemovedTask (task t)) true
  | None => printed w (NotFound i) false
  end.
Proof.
  unfold remove_todo, bind, get_todos.
  destruct find_todo_by_id as [t|]; [|apply print_ret].
  unfold set_todos. apply print_ret.
Qed.

Lemma remove_all_todos_run (w : world) :
  remove_all_todos w =
  match todos w with
  | [] => Returned false (w_print w AlreadyEmpty)
  | _ :: _ => Returned true (w_print (w_todos w []) AllRemoved)
  end.
Proof. unfold remove_all_todos, bind, get_todos. now destruct (todos w). Qed.

Lemma complete_todo_run (i : Z) (w : world) :
  complete_todo i w =
  match find_todo_by_id (todos w) i with
  | Some t =>
      if done t then printed w (AlreadyCompleted (task t)) true
      else printed (w_todos (w_tick w)
                      (assign_found (todos w) i (set_completed (clock w (ticks w)))))
                   (MarkedCompleted (task t)) true
  | None => printed w (NotFound i) false
  end.
Proof.
  unfold complete_todo, bind, get_todos.
  destruct find_todo_by_id as [t|]; [|apply print_ret].
  destruct (done t); simpl; [apply print_ret|].
  unfold now, set_todos. apply print_ret.
Qed.

Lemma complete_all_todos_run (w : world) :
  complete_all_todos w =
  match todos w with
  | [] => Returned false (w_print w EmptyNoComplete)
  | _ :: _ =>
      Returned true
        (w_print (w_todos (w_tick w)
                    (map (fun t => if negb (done t)
                                   then set_completed (clock w (ticks w)) t
                                   else t) (todos w)))
                 AllCompleted)
  end.
Proof. unfold complete_all_todos, bind, get_todos. now destruct (todos w). Qed.

Lemma pending_todo_run (i : Z) (w : world) :
  pending_todo i w =
  match find_todo_by_id (todos w) i with
  | Some t =>
      if done t
      then printed (w_todos w (assign_found (todos w) i set_pending))
                   (MarkedPending (task t)) true
      else printed w (AlreadyPending (task t)) true
  | None => printed w (NotFound i) false
  end.
Proof.
  unfold pending_todo, bind, get_todos.
  destruct find_todo_by_id as [t|]; [|apply print_ret].
  destruct (done t); simpl; [|apply print_ret].
  unfold set_todos. apply print_ret.
Qed.

Lemma pending_all_todos_run (w : world) :
  pending_all_todos w =
  match todos w with
  | [] => Returned false (w_print w EmptyNoPending)
  | _ :: _ => Returned true (w_print (w_todos w (map set_pending (todos w))) AllPending)
  end.
Proof. unfold pending_all_todos, bind, get_todos. now destruct (todos w). Qed.

Lemma update_todo_run (i : Z) (new_name : string) (w : world) :
  update_todo i new_name w =
  match find_todo_by_id (todos w) i with
  | Some t => printed (w_todos w (assign_found (todos w) i (set_task new_name)))
                      (NameUpdated (task t) new_name) true
  | None => printed w (NotFound i) false
  end.
Proof.
  unfold update_todo, bind, get_todos.
  destruct find_todo_by_id as [t|]; [|apply print_ret].
  unfold set_todos. apply print_ret.
Qed.

Lemma repeat_task_run (i count : Z) (w : world) :
  repeat_task i count w =
  match find_todo_by_id (todos w) i with
  | Some t =>
      match add_todos (repeat (task t) (Z.to_nat count)) w with
      | Returned _ w' => printed w' (Repeated (task t) count) true
      | Raised w' => Raised w'
      | OutOfFuel => OutOfFuel
      end
  | None => printed w (NotFound i) false
  end.
Proof.
  unfold repeat_task, bind, get_todos.
  destruct find_todo_by_id as [t|]; [|apply print_ret].
  destruct add_todos as [[] w' | w' |]; [|reflexivity..]. apply print_ret.
Qed.

(** ** What a run of [add_todos] does to the store *)

Lemma adds_frame (new_tasks : list string) (w w' : world) :
  adds new_tasks w w' ->
  clock w' = clock w /\ file w' = file w /\ print_raises w' = print_raises w /\
  ticks w' = (ticks w + List.length new_tasks)%nat.
Proof.
  induction 1 as [w | name rest k w w' _ _ _ (Hc & Hf & Hp & Ht)]; simpl.
  - repeat split; lia.
  - rewrite Hc, Hf, Hp, Ht. simpl. repeat split; lia.
Qed.

(** A property of the store that survives each appended record survives
    the whole call. *)
Lemma adds_preserves (P : list todo -> Prop) :
  (forall w name k, first_free (todos w) name k ->
                    P (todos w) -> P (todos w ++ [new_todo w name k])) ->
  forall new_tasks w w', adds new_tasks w w' -> P (todos w) -> P (todos w').
Proof.
  intros Hstep new_tasks w w' H.
  induction H as [w | name rest k w w' Hf _ _ IH]; intros HP; [assumption|].
  apply IH. simpl. now apply Hstep.
Qed.

Lemma candidate_free_shape (l : list todo) (p : string) (k : nat) :
  first_free l p k ->
  (name_taken l p = false -> candidate p k = p) /\
  (name_taken l p = true ->
   (1 <= k)%nat /\ candidate p k = numbered p k /\
   forall i, (1 <= i < k)%nat -> name_taken l (numbered p i) = true).
Proof.
  intros [Hfree Htaken]. split.
  - intros Hp. destruct k as [|k]; [reflexivity|].
    specialize (Htaken 0%nat ltac:(lia)). simpl in Htaken. congruence.
  - intros Hp. destruct k as [|k]; [simpl in Hfree; congruence|].
    split; [lia|]. split; [reflexivity|].
    intros i Hi. specialize (Htaken i ltac:(lia)).
    destruct i; [lia | assumption].
Qed.

(** The records appended by one call: as many as names were given, each
    pending, each under a label that nothing before it carries. *)
Lemma adds_appended (new_tasks : list string) (w w' : world) :
  adds new_tasks w w' ->
  exists l, todos w' = todos w ++ l /\
            List.length l = List.length new_tasks /\
            added_fresh (todos w) l /\
            Forall (fun t => done t = false /\ completed_at t = None) l.
Proof.
  induction 1 as [w | name rest k w w' Hf _ _ (l & Hl & Hlen & Hfresh & Hpend)].
  - exists []. rewrite app_nil_r. repeat split; constructor.
  - exists (new_todo w name k :: l). simpl in *.
    rewrite Hl, <- app_assoc. simpl. repeat split.
    + now rewrite Hlen.
    + apply Hf.
    + assumption.
    + constructor; [split; reflexivity | assumption].
Qed.

(** Ids of a store that grew by [add_todos] alone. *)
Lemma adds_sorted : forall new_tasks w w',
  adds new_tasks w w' ->
  StronglySorted Z.lt (map id (todos w)) -> StronglySorted Z.lt (map id (todos w')).
Proof.
  apply (adds_preserves (fun l => StronglySorted Z.lt (map id l))).
  intros w name k _ Hs. rewrite map_app. simpl. apply sorted_snoc; [assumption|].
  intros x Hx. apply in_map_iff in Hx as (t & <- & Hin).
  pose proof (max_id_ge _ _ Hin). lia.
Qed.

Lemma adds_Forall (P : todo -> Prop) (new_tasks : list string) (w w' : world) :
  adds new_tasks w w' ->
  (forall w0 name k, In name new_tasks -> P (new_todo w0 name k)) ->
  Forall P (todos w) -> Forall P (todos w').
Proof.
  induction 1 as [w | name rest k w w' _ _ _ IH]; intros Hnew HP; [assumption|].
  apply IH.
  - intros w0 n j Hin. apply Hnew. now right.
  - simpl. apply Forall_app. split; [assumption|].
    constructor; [|constructor]. apply Hnew. now left.
Qed.

(** ** Plain texts *)

Lemma has_bracket_app (a b : string) :
  PyStr.has_bracket (a ++ b) = PyStr.has_bracket a || PyStr.has_bracket b.
Proof.
  induction a as [|c a IH]; simpl; [reflexivity|]. now rewrite IH, orb_assoc.
Qed.

Lemma has_bracket_uint (d : Decimal.uint) :
  PyStr.has_bracket (NilEmpty.string_of_uint d) = false.
Proof. induction d; simpl; auto. Qed.

Lemma has_bracket_str_nat (n : nat) : PyStr.has_bracket (PyStr.str_nat n) = false.
Proof.
  unfold PyStr.str_nat, NilZero.string_of_uint.
  destruct (Nat.to_uint n); try apply has_bracket_uint. reflexivity.
Qed.

Lemma has_bracket_candidate (name : string) (k : nat) :
  PyStr.has_bracket (candidate name k) = PyStr.has_bracket name.
Proof.
  destruct k as [|k]; [reflexivity|].
  unfold candidate, numbered. rewrite !has_bracket_app, has_bracket_str_nat.
  simpl. now rewrite orb_false_r.
Qed.

(** The confirmation of an added plain name is printed. *)
Lemma raises_added_plain (w : world) (name : string) (k : nat) :
  plain name -> raises w (AddedTask (candidate name k)) = false.
Proof.
  intros Hp. apply raises_plain; [reflexivity|]. simpl.
  now rewrite has_bracket_candidate, Hp.
Qed.

(** [add_todos] returns on plain names. *)
Lemma add_todos_returns (new_tasks : list string) :
  Forall plain new_tasks -> forall w, exists w', add_todos new_tasks w = Returned tt w'.
Proof.
  induction 1 as [|name rest Hp _ IH]; intros w; simpl.
  - now exists w.
  - destruct (add_one_run name w) as (k & _ & Hrun).
    unfold bind. rewrite Hrun. unfold printed.
    rewrite raises_added_plain by assumption. apply IH.
Qed.

Lemma add_todos_single (name : string) (w : world) :
  add_todos [name] w = add_one name w.
Proof.
  simpl. unfold bind, ret. now destruct (add_one name w) as [[] w' | w' |].
Qed.

(** The records that a call of [add_todos] has appended when it ends,
    whether it returns or a confirmation raises: each is pending and under
    a label that nothing before it carries; there are as many as names
    when the call returns. *)
Lemma add_todos_leaves (new_tasks : list string) :
  forall w w',
    leaves (add_todos new_tasks w) w' ->
    exists l, todos w' = todos w ++ l /\
              (List.length l <= List.length new_tasks)%nat /\
              (forall u, add_todos new_tasks w = Returned u w' ->
                         List.length l = List.length new_tasks) /\
              added_fresh (todos w) l /\
              Forall (fun t => done t = false /\ completed_at t = None) l.
Proof.
  induction new_tasks as [|name rest IH]; intros w w' Hl.
  - simpl in Hl. subst w'. exists []. rewrite app_nil_r.
    repeat split; auto; constructor.
  - destruct (add_one_run name w) as (k & Hf & Hrun).
    simpl in Hl |- *. unfold bind in Hl |- *. rewrite Hrun in Hl |- *.
    unfold printed in Hl |- *.
    destruct (raises (appended w name k) (AddedTask (candidate name k))).
    + simpl in Hl. subst w'. exists [new_todo w name k]. simpl.
      repeat split; try (apply Hf || lia || discriminate).
      constructor; [split; reflexivity | constructor].
    + destruct (IH _ _ Hl) as (l & El & Hle & Hlen & Hfresh & Hpend).
      exists (new_todo w name k :: l). simpl in *.
      rewrite El, <- app_assoc. simpl. repeat split.
      * lia.
      * intros u Hu. now rewrite (Hlen u Hu).
      * apply Hf.
      * assumption.
      * constructor; [split; reflexivity | assumption].
Qed.

Ltac store_simpl :=
  unfold w_print, w_todos, w_tick, added in *;
  cbn [todos console clock ticks file print_raises] in *.

(** ** What an operation leaves when it returns *)

Ltac returned H :=
  unfold printed in H;
  repeat match type of H with
         | context [match ?x with _ => _ end] => destruct x eqn:?
         end;
  try discriminate H; injection H as <- <-.

Lemma run_op_effect (o : op) (w : world) (b : bool) (w' : world) :
  run_op o w = Returned b w' ->
  store_after o w (todos w') /\
  file w' = file w /\ print_raises w' = print_raises w /\ clock w' = clock w.
Proof.
  destruct o; simpl; intros Hrun.
  - unfold bind in Hrun.
    destruct (add_todos new_tasks w) as [[] w1 | w1 |] eqn:E; try discriminate.
    injection Hrun as <- <-. apply add_todos_adds in E.
    destruct (adds_frame _ _ _ E) as (Hc & Hf & Hp & _). eauto 6.
  - rewrite remove_todo_run in Hrun. returned Hrun; auto.
  - rewrite remove_all_todos_run in Hrun. returned Hrun; auto.
  - rewrite complete_todo_run in Hrun. returned Hrun; auto.
  - rewrite pending_todo_run in Hrun. returned Hrun; auto.
  - rewrite complete_all_todos_run in Hrun. returned Hrun; store_simpl; auto.
  - rewrite pending_all_todos_run in Hrun. returned Hrun; store_simpl; auto.
  - rewrite update_todo_run in Hrun. returned Hrun; auto.
  - rewrite repeat_task_run in Hrun.
    destruct (find_todo_by_id (todos w) todo_id) as [t|] eqn:Hfind.
    + destruct (add_todos _ w) as [[] w1 | w1 |] eqn:E; try discriminate.
      unfold printed in Hrun.
      destruct (raises w1 _); [discriminate|]. injection Hrun as <- <-.
      apply add_todos_adds in E.
      destruct (adds_frame _ _ _ E) as (Hc & Hf & Hp & _). store_simpl. eauto 6.
    + returned Hrun. auto.
Qed.

(** A property of stores kept by every operation holds after every run
    that returns. *)
Lemma run_ops_invariant (P : list todo -> Prop) :
  (forall o w b w', run_op o w = Returned b w' -> P (todos w) -> P (todos w')) ->
  forall ops w w', run_ops ops w = Returned tt w' -> P (todos w) -> P (todos w').
Proof.
  intros Hstep ops. induction ops as [|o ops IH]; intros w w' Hrun HP; simpl in Hrun.
  - injection Hrun as <-. assumption.
  - unfold bind in Hrun. destruct (run_op o w) as [b w1 | w1 |] eqn:E; try discriminate.
    eapply IH; [eassumption|]. eapply Hstep; eassumption.
Qed.

Lemma map_id_bulk (f : todo -> todo) (l : list todo) :
  (forall t, id (f t) = id t) -> map id (map f l) = map id l.
Proof. intros H. rewrite map_map. apply map_ext. assumption. Qed.

(** The ids of the store after an operation that removes nothing: the ids
    it had, then the ids of the appended records. *)
Lemma store_after_ids (o : op) (w : world) (l' : list todo) :
  store_after o w l' ->
  match o with
  | Add _ | Repeat _ _ => exists l, l' = todos w ++ l
  | Remove _ | RemoveAll => True
  | _ => map id l' = map id (todos w)
  end.
Proof.
  destruct o; simpl; try exact (fun _ => I).
  - intros (w1 & Hadds & ->). destruct (adds_appended _ _ _ Hadds) as (l & -> & _). eauto.
  - intros ->. destruct find_todo_by_id as [t|]; [|reflexivity].
    destruct (done t); [reflexivity|]. now apply assign_found_ids.
  - intros ->. destruct find_todo_by_id as [t|]; [|reflexivity].
    destruct (done t); [|reflexivity]. now apply assign_found_ids.
  - intros ->. apply map_id_bulk. intros t. now destruct (done t).
  - intros ->. now apply map_id_bulk.
  - intros ->. destruct find_todo_by_id as [t|]; [|reflexivity].
    now apply assign_found_ids.
  - destruct find_todo_by_id.
    + intros (w1 & Hadds & ->). destruct (adds_appended _ _ _ Hadds) as (l & -> & _). eauto.
    + intros ->. exists []. now rewrite app_nil_r.
Qed.

(** Ids stay strictly increasing along the list under every operation. *)
Lemma run_op_sorted (o : op) (w : world) (b : bool) (w' : world) :
  run_op o w = Returned b w' ->
  StronglySorted Z.lt (map id (todos w)) -> StronglySorted Z.lt (map id (todos w')).
Proof.
  intros Hrun Hs. apply run_op_effect in Hrun as (Heff & _).
  pose proof (store_after_ids _ _ _ Heff) as Hids.
  destruct o; simpl in *; try (now rewrite Hids).
  - destruct Heff as (w1 & Hadds & ->). eapply adds_sorted; eassumption.
  - rewrite Heff. destruct find_todo_by_id; [|assumption].
    now apply list_remove_sorted.
  - rewrite Heff. constructor.
  - destruct find_todo_by_id.
    + destruct Heff as (w1 & Hadds & ->). eapply adds_sorted; eassumption.
    + now rewrite Heff.
Qed.

(** ** Plain runs return *)

Lemma in_repeat {A} (x y : A) (n : nat) : In y (repeat x n) -> y = x.
Proof. intros H. now apply repeat_spec in H. Qed.

Lemma plain_store_find (l : list todo) (i : Z) (t : todo) :
  plain_store l -> find_todo_by_id l i = Some t -> plain (task t).
Proof.
  intros Hp Hfind. apply find_some_split in Hfind as (l1 & l2 & -> & _).
  apply Forall_app in Hp as [_ Hp]. now inversion Hp.
Qed.

(** Every operation keeps the labels of the store plain when the labels it
    brings are plain. *)
Lemma run_op_plain_store (o : op) (w : world) (b : bool) (w' : world) :
  plain_op o -> run_op o w = Returned b w' ->
  plain_store (todos w) -> plain_store (todos w').
Proof.
  intros Hop Hrun Hp. apply run_op_effect in Hrun as (Heff & _).
  unfold plain_store in *.
  destruct o; simpl in Heff, Hop.
  - destruct Heff as (w1 & Hadds & ->). eapply adds_Forall; try eassumption.
    intros w0 name k Hin. unfold plain. simpl. rewrite has_bracket_candidate.
    eapply Forall_forall in Hop; eassumption.
  - rewrite Heff. destruct find_todo_by_id; [|assumption]. now apply list_remove_Forall.
  - rewrite Heff. constructor.
  - rewrite Heff. destruct find_todo_by_id as [t|]; [|assumption].
    destruct (done t); [assumption|]. apply assign_found_Forall; auto.
  - rewrite Heff. destruct find_todo_by_id as [t|]; [|assumption].
    destruct (done t); [|assumption]. apply assign_found_Forall; auto.
  - rewrite Heff. apply Forall_map. revert Hp. apply Forall_impl.
    intros t Ht. now destruct (done t).
  - rewrite Heff. apply Forall_map. revert Hp. now apply Forall_impl.
  - rewrite Heff. destruct find_todo_by_id as [t|]; [|assumption].
    apply assign_found_Forall; [|assumption]. intros x _. apply Hop.
  - destruct (find_todo_by_id (todos w) todo_id) as [t|] eqn:Hfind.
    + destruct Heff as (w1 & Hadds & ->). eapply adds_Forall; try eassumption.
      intros w0 name k Hin. apply in_repeat in Hin as ->.
      unfold plain. simpl. rewrite has_bracket_candidate.
      eapply plain_store_find; eassumption.
    + now rewrite Heff.
Qed.

(** On a store of plain labels every plain operation returns. *)
Lemma run_op_returns (o : op) (w : world) :
  plain_op o -> plain_store (todos w) -> exists b w', run_op o w = Returned b w'.
Proof.
  intros Hop Hp. destruct o; simpl in *.
  - destruct (add_todos_returns _ Hop w) as (w' & Hrun).
    exists true, w'. unfold bind. now rewrite Hrun.
  - rewrite remove_todo_run. unfold printed.
    destruct find_todo_by_id as [t|] eqn:Hfind.
    + pose proof (plain_store_find _ _ _ Hp Hfind) as Ht.
      rewrite raises_plain; [eauto | reflexivity | simpl; now rewrite Ht].
    + rewrite raises_NotFound, Hop. eauto.
  - rewrite remove_all_todos_run. destruct (todos w); eauto.
  - rewrite complete_todo_run. unfold printed.
    destruct find_todo_by_id as [t|] eqn:Hfind.
    + pose proof (plain_store_find _ _ _ Hp Hfind) as Ht.
      destruct (done t);
        (rewrite raises_plain; [eauto | reflexivity | simpl; now rewrite Ht]).
    + rewrite raises_NotFound, Hop. eauto.
  - rewrite pending_todo_run. unfold printed.
    destruct find_todo_by_id as [t|] eqn:Hfind.
    + pose proof (plain_store_find _ _ _ Hp Hfind) as Ht.
      destruct (done t);
        (rewrite raises_plain; [eauto | reflexivity | simpl; now rewrite Ht]).
    + rewrite raises_NotFound, Hop. eauto.
  - rewrite complete_all_todos_run. destruct (todos w); eauto.
  - rewrite pending_all_todos_run. destruct (todos w); eauto.
  - destruct Hop as [Hi Hn]. rewrite update_todo_run. unfold printed.
    destruct find_todo_by_id as [t|] eqn:Hfind.
    + pose proof (plain_store_find _ _ _ Hp Hfind) as Ht.
      rewrite raises_plain; [eauto | reflexivity | simpl; now rewrite Ht, Hn].
    + rewrite raises_NotFound, Hi. eauto.
  - destruct Hop as [Hi Hc]. rewrite repeat_task_run. unfold printed.
    destruct find_todo_by_id as [t|] eqn:Hfind.
    + pose proof (plain_store_find _ _ _ Hp Hfind) as Ht.
      destruct (add_todos_returns (repeat (task t) (Z.to_nat repeat_count))) with (w := w)
        as (w1 & ->).
      { apply Forall_forall. intros x Hx. now apply in_repeat in Hx as ->. }
      rewrite raises_plain; [eauto | | simpl; now rewrite Ht].
      simpl. unfold PyStr.too_long in Hc. now rewrite Hc.
    + rewrite raises_NotFound, Hi. eauto.
Qed.

Lemma run_ops_returns (ops : list op) :
  Forall plain_op ops ->
  forall w, plain_store (todos w) -> exists w', run_ops ops w = Returned tt w'.
Proof.
  induction 1 as [|o ops Ho _ IH]; intros w Hp; simpl.
  - now exists w.
  - destruct (run_op_returns o w Ho Hp) as (b & w1 & Hrun).
    unfold bind. rewrite Hrun. apply IH.
    eapply run_op_plain_store; eassumption.
Qed.

(** ** Ids handed out during a run *)

Lemma skipn_length_app {A} (l1 l2 : list A) : skipn (List.length l1) (l1 ++ l2) = l2.
Proof. induction l1; simpl; auto. Qed.

(** Without removals, the ids of the store are the ids it had followed by
    the ids handed out. *)
Lemma run_op_ids_grow (o : op) (w : world) (b : bool) (w' : world) :
  removes o = false ->
  run_op o w = Returned b w' ->
  map id (todos w') = map id (todos w) ++ new_ids o w w'.
Proof.
  intros Hrm Hrun. apply run_op_effect in Hrun as (Heff & _).
  pose proof (store_after_ids _ _ _ Heff) as Hids.
  destruct o; simpl in *; try discriminate; rewrite ?app_nil_r; try assumption.
  - destruct Hids as (l & ->). now rewrite skipn_length_app, map_app.
  - destruct Hids as (l & ->). now rewrite skipn_length_app, map_app.
Qed.

Lemma run_ops_ids_grow (ops : list op) :
  forall w w',
    forallb (fun o => negb (removes o)) ops = true ->
    run_ops ops w = Returned tt w' ->
    map id (todos w') = map id (todos w) ++ assigned_ids ops w.
Proof.
  induction ops as [|o ops IH]; intros w w' Hno Hrun; simpl in *.
  - injection Hrun as <-. now rewrite app_nil_r.
  - apply andb_true_iff in Hno as [Ho Hops]. apply negb_true_iff in Ho.
    unfold bind in Hrun. destruct (run_op o w) as [b w1 | w1 |] eqn:E; try discriminate.
    rewrite (IH _ _ Hops Hrun), (run_op_ids_grow _ _ _ _ Ho E).
    now rewrite app_assoc.
Qed.

(** What the next [add_todos] of one name does to a store. *)
Lemma next_add (w : world) (name : string) :
  exists k,
    first_free (todos w) name k /\
    add_todos [name] w = printed (appended w name k)
                                 (AddedTask (candidate name k)) tt /\
    id (new_todo w name k) = max_id (todos w) + 1 /\
    (todos w = [] -> id (new_todo w name k) = 1) /\
    (forall t, In t (todos w) -> id t < id (new_todo w name k)) /\
    (todos w <> [] ->
     exists t, In t (todos w) /\ id (new_todo w name k) = id t + 1 /\
               forall x, In x (todos w) -> id x <= id t).
Proof.
  destruct (add_one_run name w) as (k & Hf & Hrun). exists k.
  split; [assumption|].
  split; [now rewrite add_todos_single|].
  split; [reflexivity|]. simpl. repeat split.
  - intros ->. reflexivity.
  - intros t Hin. pose proof (max_id_ge _ _ Hin). lia.
  - intros Hne. destruct (max_id_attained _ Hne) as (t & Hin & E).
    exists t. split; [assumption|]. split; [lia|].
    intros x Hx. rewrite E. now apply max_id_ge.
Qed.

(** C1 (as the code has it).  Take any sequence of operations run from an
    empty store (in particular any sequence of Add and Remove).  The run
    returns when its labels are plain and its integers within the digit
    limit.  Whenever it returns: the ids of the records in the store are
    strictly increasing along the list, hence pairwise distinct; the next
    Add of a name appends a record whose id is 1 + the maximum id currently
    in the store (1 on the empty store), greater than every id currently in
    the store, and then returns, or raises when rich refuses the
    confirmation; and when the sequence deletes nothing, the ids handed out
    along it are strictly increasing. *)
Theorem ids_of_runs (ops : list op) (w : world) :
  todos w = [] ->
  (Forall plain_op ops -> exists w', run_ops ops w = Returned tt w') /\
  (forall w',
      run_ops ops w = Returned tt w' ->
      StronglySorted Z.lt (map id (todos w')) /\
      NoDup (map id (todos w')) /\
      (forall name, exists k,
          first_free (todos w') name k /\
          add_todos [name] w' = printed (appended w' name k)
                                        (AddedTask (candidate name k)) tt /\
          (plain name -> add_todos [name] w' = Returned tt (added w' name k)) /\
          todos (appended w' name k) = todos w' ++ [new_todo w' name k] /\
          id (new_todo w' name k) = max_id (todos w') + 1 /\
          (todos w' = [] -> id (new_todo w' name k) = 1) /\
          (forall t, In t (todos w') -> id t < id (new_todo w' name k)) /\
          (todos w' <> [] ->
           exists t, In t (todos w') /\ id (new_todo w' name k) = id t + 1 /\
                     forall x, In x (todos w') -> id x <= id t)) /\
      (forallb (fun o => negb (removes o)) ops = true ->
       StronglySorted Z.lt (assigned_ids ops w))).
Proof.
  intros Hempty. split.
  - intros Hops. apply run_ops_returns; [assumption|].
    unfold plain_store. rewrite Hempty. constructor.
  - intros w' Hrun.
    assert (Hs : StronglySorted Z.lt (map id (todos w'))).
    { apply (run_ops_invariant (fun l => StronglySorted Z.lt (map id l))
               run_op_sorted ops _ _ Hrun). rewrite Hempty. constructor. }
    split; [assumption|]. split; [now apply sorted_NoDup|]. split.
    + intros name. destruct (next_add w' name) as (k & Hf & Hadd & Hid).
      exists k. split; [assumption|]. split; [assumption|]. split.
      { intros Hp. rewrite Hadd. unfold printed.
        now rewrite raises_added_plain. }
      split; [reflexivity | assumption].
    + intros Hno. pose proof (run_ops_ids_grow ops _ _ Hno Hrun) as E.
      rewrite Hempty in E. simpl in E. now rewrite <- E.
Qed.

Lemma ids_of_runs_witness :
  StronglySorted Z.lt
    (assigned_ids [Add ["a"%string; "a"%string]; Complete 1; Add ["b"%string]]
                  (empty_world silent_clock None)).
Proof.
  destruct (ids_of_runs [Add ["a"%string; "a"%string]; Complete 1; Add ["b"%string]]
                        (empty_world silent_clock None) eq_refl) as [Hret Hids].
  destruct Hret as (w' & Hrun).
  { repeat constructor. }
  destruct (Hids w' Hrun) as (_ & _ & _ & H). apply H. reflexivity.
Defined.

(** C1 (as stated) fails: after the record holding the largest id is
    removed, the next Add hands out that id again. *)
Lemma id_reused_after_remove :
  forallb is_add_or_remove reuse_run = true /\
  assigned_ids reuse_run (empty_world silent_clock None) = [1; 2; 2] /\
  ~ NoDup (assigned_ids reuse_run (empty_world silent_clock None)) /\
  ~ StronglySorted Z.lt (assigned_ids reuse_run (empty_world silent_clock None)).
Proof.
  assert (E : assigned_ids reuse_run (empty_world silent_clock None) = [1; 2; 2])
    by reflexivity.
  split; [reflexivity|]. split; [assumption|]. rewrite E. split.
  - intros H. inversion H as [|? ? _ H']; subst.
    inversion H' as [|? ? Hin _]; subst. apply Hin. now left.
  - intros H. apply sorted_NoDup in H. inversion H as [|? ? _ H']; subst.
    inversion H' as [|? ? Hin _]; subst. apply Hin. now left.
Qed.

(** ** Labels *)

(** C3.  On every store, Add of a proposed label appends one record; its
    label is the proposed label when no record carries it, and otherwise the
    proposed label with the suffix " (n)" for the least n >= 1 whose label
    no record carries; either way no record of the store carried the new
    label.  The record is in the list whichever way the call ends: it
    returns once the confirmation is printed, which a plain label always
    is, and it raises when rich refuses the confirmation.  In a call with
    several labels every record appended by the time the call ends has a
    label that no record before it carries; there is one per label when the
    call returns, which it does on plain labels. *)
Theorem add_resolves_duplicates (w : world) (p : string) :
  (exists k t,
      t = new_todo w p k /\
      add_todos [p] w = printed (appended w p k) (AddedTask (task t)) tt /\
      (forall w', leaves (add_todos [p] w) w' -> todos w' = todos w ++ [t]) /\
      (plain p -> add_todos [p] w = Returned tt (added w p k)) /\
      (name_taken (todos w) p = false -> task t = p) /\
      (name_taken (todos w) p = true ->
       exists n, (1 <= n)%nat /\ task t = numbered p n /\
                 forall i, (1 <= i < n)%nat ->
                           name_taken (todos w) (numbered p i) = true) /\
      name_taken (todos w) (task t) = false) /\
  (forall new_tasks w',
      leaves (add_todos new_tasks w) w' ->
      exists l, todos w' = todos w ++ l /\
                (List.length l <= List.length new_tasks)%nat /\
                (forall u, add_todos new_tasks w = Returned u w' ->
                           List.length l = List.length new_tasks) /\
                added_fresh (todos w) l) /\
  (forall new_tasks,
      Forall plain new_tasks -> exists w', add_todos new_tasks w = Returned tt w').
Proof.
  split; [|split].
  - destruct (next_add w p) as (k & Hf & Hrun & _).
    destruct (candidate_free_shape _ _ _ Hf) as [Hfresh Hdup].
    exists k, (new_todo w p k).
    split; [reflexivity|]. split; [assumption|]. split.
    { intros w' Hl. rewrite Hrun in Hl. unfold printed in Hl.
      destruct (raises _ _); simpl in Hl; now subst w'. }
    split.
    { intros Hp. rewrite Hrun. unfold printed.
      now rewrite raises_added_plain. }
    split; [exact Hfresh|]. split.
    + intros Hp. destruct (Hdup Hp) as (Hk & E & Hlt). exists k. auto.
    + apply Hf.
  - intros new_tasks w' Hl.
    destruct (add_todos_leaves _ _ _ Hl) as (l & El & Hle & Hlen & Hfresh & _).
    exists l. auto.
  - intros new_tasks Hp. now apply add_todos_returns.
Qed.

Lemma add_resolves_duplicates_witness :
  exists t w',
    add_todos ["a"%string] one_task_world = Returned tt w' /\
    todos w' = todos one_task_world ++ [t] /\
    exists n, (1 <= n)%nat /\ task t = numbered "a" n.
Proof.
  destruct (add_resolves_duplicates one_task_world "a")
    as [(k & t & Ht & _ & Hl & Hplain & _ & Hdup & _) _].
  destruct (Hdup eq_refl) as (n & Hn & E & _).
  specialize (Hplain eq_refl).
  exists t, (added one_task_world "a" k).
  split; [assumption|]. split.
  - apply Hl. now rewrite Hplain.
  - exists n. auto.
Defined.

(** ** Completion times *)

Lemma consistent_pending (t : todo) :
  done t = false -> completed_at t = None -> completion_consistent t.
Proof.
  unfold completion_consistent. intros -> ->. split; [congruence | discriminate].
Qed.

Lemma consistent_set_completed (stamp : string) (t : todo) :
  completion_consistent (set_completed stamp t).
Proof. unfold completion_consistent. simpl. split; [reflexivity | discriminate]. Qed.

Lemma consistent_set_pending (t : todo) : completion_consistent (set_pending t).
Proof. apply consistent_pending; reflexivity. Qed.

Lemma consistent_set_task (name : string) (t : todo) :
  completion_consistent t -> completion_consistent (set_task name t).
Proof. unfold completion_consistent. simpl. auto. Qed.

Lemma run_op_consistent (o : op) (w : world) (b : bool) (w' : world) :
  run_op o w = Returned b w' ->
  Forall completion_consistent (todos w) -> Forall completion_consistent (todos w').
Proof.
  intros Hrun Hc. apply run_op_effect in Hrun as (Heff & _).
  assert (Hadds : forall names w1, adds names w w1 ->
                                   Forall completion_consistent (todos w1)).
  { intros names w1 H. eapply adds_Forall; try eassumption.
    intros w0 name k _. now apply consistent_pending. }
  destruct o; simpl in Heff.
  - destruct Heff as (w1 & H & ->). eauto.
  - rewrite Heff. destruct find_todo_by_id; [|assumption]. now apply list_remove_Forall.
  - rewrite Heff. constructor.
  - rewrite Heff. destruct find_todo_by_id as [t|]; [|assumption].
    destruct (done t); [assumption|]. apply assign_found_Forall; [|assumption].
    intros x _. apply consistent_set_completed.
  - rewrite Heff. destruct find_todo_by_id as [t|]; [|assumption].
    destruct (done t); [|assumption]. apply assign_found_Forall; [|assumption].
    intros x _. apply consistent_set_pending.
  - rewrite Heff. apply Forall_map. revert Hc. apply Forall_impl. intros x Hx.
    destruct (done x); simpl; [assumption | apply consistent_set_completed].
  - rewrite Heff. apply Forall_map. apply Forall_forall.
    intros x _. apply consistent_set_pending.
  - rewrite Heff. destruct find_todo_by_id as [t|]; [|assumption].
    apply assign_found_Forall; [|assumption]. intros x. apply consistent_set_task.
  - destruct find_todo_by_id.
    + destruct Heff as (w1 & H & ->). eauto.
    + now rewrite Heff.
Qed.

(** C4.  Take any run of Add, Remove, RemoveAll, Complete, Pending,
    CompleteAll, PendingAll, Update and Repeat from an empty store.  It
    returns when its labels are plain and its integers within the digit
    limit; and in the store that any returning run reaches, every record
    has [completed_at] non-null exactly when [done] is true. *)
Theorem completed_at_iff_done (ops : list op) (w : world) :
  todos w = [] ->
  (Forall plain_op ops -> exists w', run_ops ops w = Returned tt w') /\
  (forall w',
      run_ops ops w = Returned tt w' ->
      forall t, In t (todos w') -> (completed_at t <> None <-> done t = true)).
Proof.
  intros Hempty. split.
  - intros Hops. apply run_ops_returns; [assumption|].
    unfold plain_store. rewrite Hempty. constructor.
  - intros w' Hrun.
    apply Forall_forall.
    apply (run_ops_invariant (Forall completion_consistent)
             run_op_consistent ops _ _ Hrun).
    rewrite Hempty. constructor.
Qed.

Lemma completed_at_iff_done_witness :
  exists w' t,
    run_ops [Add ["a"%string]; Complete 1] (empty_world silent_clock None)
    = Returned tt w' /\
    todos w' = [t] /\ done t = true /\ completed_at t <> None.
Proof.
  destruct (completed_at_iff_done [Add ["a"%string]; Complete 1]
                                  (empty_world silent_clock None) eq_refl)
    as [Hret Hinv].
  destruct Hret as (w' & Hrun); [repeat constructor|].
  assert (E : run_ops [Add ["a"%string]; Complete 1] (empty_world silent_clock None)
              = Returned tt w') by exact Hrun.
  vm_compute in Hrun. injection Hrun as Hw.
  exists w', (mkTodo 1 "a" true EmptyString (Some EmptyString)).
  split; [exact E|]. rewrite <- Hw. split; [reflexivity|]. split; [reflexivity|].
  apply (Hinv w' E). rewrite <- Hw. left. reflexivity. reflexivity.
Defined.

(** ** Bulk transitions *)

Lemma set_completed_changes (stamp : string) (t : todo) :
  done t = false -> set_completed stamp t <> t.
Proof. intros Hd E. apply (f_equal done) in E. simpl in E. congruence. Qed.

Lemma set_pending_fixed_iff (t : todo) : set_pending t = t <-> is_pending_state t.
Proof.
  unfold is_pending_state. split.
  - intros E. split; [apply (f_equal done) in E | apply (f_equal completed_at) in E];
      simpl in E; congruence.
  - intros [Hd Hc]. destruct t as [i n d c ca]. simpl in *. subst. reflexivity.
Qed.

(** C5.  CompleteAll and PendingAll terminate on every store and return
    false exactly on the empty store.  CompleteAll leaves a record as it is
    exactly when it is already done, and turns every other record into a
    done record with one and the same completion time, read once from the
    clock.  PendingAll leaves a record as it is exactly when it is already
    in the pending state (not done, no completion time), and puts every
    other record into that state; on a record whose completion time is
    consistent with its flag, that is exactly when it is not done. *)
Theorem bulk_transitions (w : world) :
  (exists b w',
      complete_all_todos w = Returned b w' /\
      (b = false <-> todos w = []) /\
      exists stamp,
        Forall2 (fun t t' =>
                   (t' = t <-> done t = true) /\
                   (t' <> t -> t' = set_completed stamp t /\
                               done t' = true /\ completed_at t' = Some stamp))
                (todos w) (todos w')) /\
  (exists b w',
      pending_all_todos w = Returned b w' /\
      (b = false <-> todos w = []) /\
      Forall2 (fun t t' =>
                 (t' = t <-> is_pending_state t) /\
                 (completion_consistent t -> (t' = t <-> done t = false)) /\
                 t' = set_pending t)
              (todos w) (todos w')).
Proof.
  split.
  - rewrite complete_all_todos_run.
    destruct (todos w) as [|x l] eqn:E.
    + exists false, (w_print w EmptyNoComplete). split; [reflexivity|].
      split; [tauto|]. exists EmptyString. store_simpl. rewrite E. constructor.
    + eexists true, _. split; [reflexivity|].
      split; [split; discriminate|].
      exists (clock w (ticks w)). store_simpl.
      generalize (x :: l). intros l0. induction l0 as [|y l0 IH]; simpl;
        constructor; [|assumption].
      destruct (done y) eqn:Hd; simpl.
      * split; [tauto | congruence].
      * split; [|auto]. split; [|discriminate].
        intros E'. now apply set_completed_changes in E'.
  - rewrite pending_all_todos_run.
    destruct (todos w) as [|x l] eqn:E.
    + exists false, (w_print w EmptyNoPending). split; [reflexivity|].
      split; [tauto|]. store_simpl. rewrite E. constructor.
    + eexists true, _. split; [reflexivity|].
      split; [split; discriminate|]. store_simpl.
      generalize (x :: l). intros l0. induction l0 as [|y l0 IH]; simpl;
        constructor; [|assumption].
      split; [apply set_pending_fixed_iff|]. split; [|reflexivity].
      intros Hc. rewrite set_pending_fixed_iff. unfold is_pending_state.
      unfold completion_consistent in Hc. split; [tauto|].
      intros Hd. split; [assumption|].
      destruct (completed_at y) eqn:Hca; [|reflexivity].
      assert (done y = true) by (apply Hc; discriminate). congruence.
Qed.

Lemma bulk_transitions_witness :
  exists b w' t',
    pending_all_todos one_task_world = Returned b w' /\
    todos w' = [t'] /\
    (t' = mkTodo 1 "a" false "" None <-> done (mkTodo 1 "a" false "" None) = false).
Proof.
  destruct (bulk_transitions one_task_world) as [_ (b & w' & Hrun & _ & H)].
  simpl in H.
  inversion H as [|t t' l l' (_ & Hc & _) Hrest E1 E2]; subst.
  inversion Hrest; subst.
  exists b, w', t'. split; [assumption|]. split; [now symmetry|].
  apply Hc. apply consistent_pending; reflexivity.
Defined.

(** ** Ids that are not in the store *)




(** ** Complete, then Pending *)

(** The world that printing leaves behind differs from the world before at
    most in the console. *)
Lemma printed_leaves {A} (w : world) (m : msg) (a : A) :
  exists w',
    leaves (printed w m a) w' /\
    todos w' = todos w /\ file w' = file w /\
    clock w' = clock w /\ ticks w' = ticks w /\
    (raises w m = false -> printed w m a = Returned a w').
Proof.
  unfold printed. destruct (raises w m).
  - exists w. repeat split. discriminate.
  - exists (w_print w m). repeat split.
Qed.

(** Complete assigns before it prints: the world that the call leaves is
    the same whether the message is printed or refused. *)
Lemma complete_todo_leaves (w : world) (i : Z) (t0 : todo) :
  find_todo_by_id (todos w) i = Some t0 ->
  exists w1,
    leaves (complete_todo i w) w1 /\
    todos w1 = (if done t0 then todos w
                else assign_found (todos w) i (set_completed (clock w (ticks w)))) /\
    file w1 = file w /\
    (plain (task t0) -> complete_todo i w = Returned true w1).
Proof.
  intros Hfind. rewrite complete_todo_run, Hfind.
  destruct (done t0).
  - destruct (printed_leaves w (AlreadyCompleted (task t0)) true)
      as (w1 & Hl & Ht & Hf & _ & _ & Hr).
    exists w1. repeat split; try assumption.
    intros Hp. apply Hr. apply raises_plain; [reflexivity|]. simpl. now rewrite Hp.
  - match goal with
    | |- context [printed ?w0 ?m true] =>
        destruct (printed_leaves w0 m true) as (w1 & Hl & Ht & Hf & _ & _ & Hr)
    end.
    exists w1. repeat split; try assumption.
    intros Hp. apply Hr. apply raises_plain; [reflexivity|]. simpl. now rewrite Hp.
Qed.

Lemma pending_todo_leaves (w : world) (i : Z) (t0 : todo) :
  find_todo_by_id (todos w) i = Some t0 ->
  exists w1,
    leaves (pending_todo i w) w1 /\
    todos w1 = (if done t0 then assign_found (todos w) i set_pending else todos w) /\
    file w1 = file w /\
    (plain (task t0) -> pending_todo i w = Returned true w1).
Proof.
  intros Hfind. rewrite pending_todo_run, Hfind.
  destruct (done t0).
  - match goal with
    | |- context [printed ?w0 ?m true] =>
        destruct (printed_leaves w0 m true) as (w1 & Hl & Ht & Hf & _ & _ & Hr)
    end.
    exists w1. repeat split; try assumption.
    intros Hp. apply Hr. apply raises_plain; [reflexivity|]. simpl. now rewrite Hp.
  - destruct (printed_leaves w (AlreadyPending (task t0)) true)
      as (w1 & Hl & Ht & Hf & _ & _ & Hr).
    exists w1. repeat split; try assumption.
    intros Hp. apply Hr. apply raises_plain; [reflexivity|]. simpl. now rewrite Hp.
Qed.

(** C7.  For a record [t] of the store, take Complete on its id and then
    Pending on the same id, each call ending as it may: it returns true
    once its message is printed (always, for a plain label), or rich
    refuses the message, after the assignment.  The record [t0] that the id
    designates (the first with that id; [t] itself when ids are unique)
    ends not done and without completion time, with its id, label and
    creation time as they were, and no other record of the list changes. *)
Theorem complete_then_pending (w : world) (t : todo) :
  In t (todos w) ->
  exists t0 w1 w2,
    find_todo_by_id (todos w) (id t) = Some t0 /\
    (NoDup (map id (todos w)) -> t0 = t) /\
    leaves (complete_todo (id t) w) w1 /\
    leaves (pending_todo (id t) w1) w2 /\
    (plain (task t0) ->
     complete_todo (id t) w = Returned true w1 /\
     pending_todo (id t) w1 = Returned true w2) /\
    find_todo_by_id (todos w2) (id t) = Some (set_pending t0) /\
    done (set_pending t0) = false /\ completed_at (set_pending t0) = None /\
    todos w2 = assign_found (todos w) (id t) set_pending.
Proof.
  intros Hin. destruct (find_in _ _ Hin) as (t0 & Hfind & Hid).
  destruct (find_some_split _ _ _ Hfind) as (l1 & l2 & Hl & _ & Hnone).
  rewrite <- Hid in *.
  assert (Hfind' : forall x, id x = id t0 ->
                             find_todo_by_id (l1 ++ x :: l2) (id t0) = Some x).
  { intros x Hx. rewrite find_app_none by assumption. simpl.
    now rewrite Hx, Z.eqb_refl. }
  assert (Hset : assign_found (todos w) (id t0) set_pending
                 = l1 ++ set_pending t0 :: l2).
  { rewrite Hl. now apply assign_found_split. }
  assert (Huniq : NoDup (map id (todos w)) -> t0 = t).
  { intros Hnd. pose proof (find_in_NoDup _ _ Hnd Hin) as E.
    rewrite Hid in Hfind. congruence. }
  destruct (complete_todo_leaves w (id t0) t0 Hfind) as (w1 & Hl1 & Ht1 & _ & Hr1).
  destruct (done t0) eqn:Hd.
  - (* already completed: Complete changes nothing, Pending resets *)
    assert (Hfind1 : find_todo_by_id (todos w1) (id t0) = Some t0)
      by now rewrite Ht1.
    destruct (pending_todo_leaves w1 (id t0) t0 Hfind1) as (w2 & Hl2 & Ht2 & _ & Hr2).
    rewrite Hd, Ht1, Hset in Ht2.
    exists t0, w1, w2. repeat split; auto.
    + rewrite Ht2. now apply Hfind'.
    + now rewrite Ht2, Hset.
  - (* pending: Complete stamps the record, Pending resets it *)
    set (stamp := clock w (ticks w)) in *.
    assert (A1 : todos w1 = l1 ++ set_completed stamp t0 :: l2).
    { rewrite Ht1, Hl. now apply assign_found_split. }
    assert (Hfind1 : find_todo_by_id (todos w1) (id t0)
                     = Some (set_completed stamp t0)).
    { rewrite A1. now apply Hfind'. }
    destruct (pending_todo_leaves w1 (id t0) _ Hfind1) as (w2 & Hl2 & Ht2 & _ & Hr2).
    assert (A3 : assign_found (l1 ++ set_completed stamp t0 :: l2) (id t0) set_pending
                 = l1 ++ set_pending t0 :: l2).
    { apply (assign_found_split l1 l2 (set_completed stamp t0) set_pending).
      assumption. }
    simpl in Ht2, Hr2. rewrite A1, A3 in Ht2.
    exists t0, w1, w2. repeat split; auto.
    + rewrite Ht2. now apply Hfind'.
    + now rewrite Ht2, Hset.
Qed.

Lemma complete_then_pending_witness :
  exists t0 w1 w2,
    complete_todo 1 one_task_world = Returned true w1 /\
    pending_todo 1 w1 = Returned true w2 /\
    find_todo_by_id (todos w2) 1 = Some (set_pending t0) /\
    t0 = mkTodo 1 "a" false "" None.
Proof.
  assert (Hin : In (mkTodo 1 "a" false "" None) (todos one_task_world))
    by (simpl; now left).
  destruct (complete_then_pending one_task_world _ Hin)
    as (t0 & w1 & w2 & _ & Hu & _ & _ & Hr & Hf & _).
  assert (E : t0 = mkTodo 1 "a" false "" None).
  { apply Hu. simpl. repeat constructor. intros []. }
  destruct Hr as [Hc Hp]; [now rewrite E|].
  exists t0, w1, w2. repeat split; assumption.
Defined.

(** ** Repeat *)

Lemma added_fresh_not_taken (l0 l : list todo) :
  added_fresh l0 l -> forall y, In y l -> name_taken l0 (task y) = false.
Proof.
  revert l0. induction l as [|x r IH]; simpl; intros l0 H y Hy; [contradiction|].
  destruct H as [Hx Hr]. destruct Hy as [<- | Hy]; [assumption|].
  specialize (IH _ Hr y Hy). rewrite name_taken_app in IH.
  now apply orb_false_iff in IH as [IH _].
Qed.

(** Records appended under fresh labels carry pairwise distinct labels. *)
Lemma added_fresh_NoDup (l0 l : list todo) : added_fresh l0 l -> NoDup (map task l).
Proof.
  revert l0. induction l as [|x r IH]; simpl; intros l0 H; [constructor|].
  destruct H as [Hx Hr]. constructor; [|eauto].
  intros Hin. apply in_map_iff in Hin as (y & E & Hy).
  pose proof (added_fresh_not_taken _ _ Hr y Hy) as Hn.
  rewrite name_taken_app in Hn. apply orb_false_iff in Hn as [_ Hn].
  simpl in Hn. rewrite E, String.eqb_refl in Hn. discriminate.
Qed.

Lemma name_taken_single (t : todo) (name : string) :
  name_taken [t] name = String.eqb (task t) name.
Proof. unfold name_taken. simpl. apply orb_false_r. Qed.

(** Copies of a taken label [L] whose variants (j+1), ..., (j+n) are free,
    the variants (1), ..., (j) being taken, are appended under the labels
    L (j+1), ..., L (j+n), in this order. *)
Lemma adds_repeat_labels (L : string) (n : nat) :
  forall (j : nat) (w w' : world),
    name_taken (todos w) L = true ->
    (forall i, (1 <= i <= j)%nat -> name_taken (todos w) (numbered L i) = true) ->
    (forall i, (j < i <= j + n)%nat -> name_taken (todos w) (numbered L i) = false) ->
    adds (repeat L n) w w' ->
    exists l, todos w' = todos w ++ l /\
              map task l = map (numbered L) (seq (S j) n).
Proof.
  induction n as [|n IH]; intros j w w' HL Htaken Hfree Hadds; simpl in Hadds.
  - inversion Hadds; subst. exists []. now rewrite app_nil_r.
  - inversion Hadds as [| ? ? k ? ? Hf _ Hrest]; subst.
    assert (Hj : first_free (todos w) L (S j)).
    { split.
      - simpl. apply Hfree. lia.
      - intros i Hi. destruct i as [|i]; [assumption|]. apply Htaken. lia. }
    assert (k = S j) by (eapply first_free_unique; eassumption). subst k.
    destruct (IH (S j) (added w L (S j)) w') as (l & Hl & Hlab);
      [| | | exact Hrest |]; store_simpl.
    + rewrite name_taken_app, HL. reflexivity.
    + intros i Hi. rewrite name_taken_app.
      destruct (Nat.eq_dec i (S j)) as [-> | Hne].
      * rewrite name_taken_single. simpl. rewrite String.eqb_refl. apply orb_true_r.
      * rewrite Htaken by lia. reflexivity.
    + intros i Hi. rewrite name_taken_app, Hfree by lia.
      rewrite name_taken_single. simpl. apply String.eqb_neq.
      intros E. apply numbered_inj in E. lia.
    + exists (new_todo w L (S j) :: l). rewrite Hl, <- app_assoc. split; [reflexivity|].
      simpl. now rewrite Hlab.
Qed.

Lemma find_some_name_taken (l : list todo) (i : Z) (t : todo) :
  find_todo_by_id l i = Some t -> name_taken l (task t) = true.
Proof.
  intros H. destruct (find_some_split _ _ _ H) as (l1 & l2 & -> & _).
  rewrite name_taken_app. simpl. rewrite String.eqb_refl. apply orb_true_r.
Qed.

(** C8 (what the code does).  Let the id designate a record [t] with label
    L.  Whenever Repeat returns, it returns true, having run [add_todos] on
    [count] copies of L: exactly [count] records are appended, each under a
    label that no record before it carries, so the copies have pairwise
    distinct labels; when none of L (1), ..., L (count) is carried by a
    record, the copies are labelled L (1), ..., L (count) in this order.
    Repeat returns when L is plain and [count] within the digit limit.  But
    when rich refuses the confirmation of the first copy, Repeat raises
    with that one copy appended, whatever [count] > 0 is.  When no record
    has the id, Repeat prints the not-found message and returns false. *)
Theorem repeat_appends_copies (w : world) (i count : Z) :
  (forall t, find_todo_by_id (todos w) i = Some t ->
     (forall b w',
         repeat_task i count w = Returned b w' ->
         exists w1 l,
           b = true /\
           add_todos (repeat (task t) (Z.to_nat count)) w = Returned tt w1 /\
           w' = w_print w1 (Repeated (task t) count) /\
           todos w1 = todos w ++ l /\
           List.length l = Z.to_nat count /\
           added_fresh (todos w) l /\
           NoDup (map task l) /\
           ((forall k, (1 <= k <= Z.to_nat count)%nat ->
                       name_taken (todos w) (numbered (task t) k) = false) ->
            map task l = map (numbered (task t)) (seq 1 (Z.to_nat count)))) /\
     (plain (task t) -> PyStr.too_long count = false ->
      exists w', repeat_task i count w = Returned true w') /\
     (exists k,
         first_free (todos w) (task t) k /\
         (raises w (AddedTask (candidate (task t) k)) = true -> 0 < count ->
          repeat_task i count w = Raised (appended w (task t) k)))) /\
  (find_todo_by_id (todos w) i = None ->
   repeat_task i count w = printed w (NotFound i) false).
Proof.
  rewrite repeat_task_run. split.
  - intros t Hfind. rewrite Hfind. split; [|split].
    + intros b w' Hrun.
      destruct (add_todos (repeat (task t) (Z.to_nat count)) w)
        as [[] w1 | w1 |] eqn:E; try discriminate.
      unfold printed in Hrun. destruct (raises w1 _); [discriminate|].
      injection Hrun as <- <-.
      apply add_todos_adds in E.
      destruct (adds_appended _ _ _ E) as (l & Hl & Hlen & Hfresh & _).
      exists w1, l. split; [reflexivity|]. split; [reflexivity|].
      split; [reflexivity|]. split; [assumption|].
      split; [now rewrite Hlen, repeat_length|].
      split; [assumption|]. split; [eapply added_fresh_NoDup; eassumption|].
      intros Hfree.
      destruct (adds_repeat_labels (task t) (Z.to_nat count) 0 w w1)
        as (l' & Hl' & Hlab).
      * eapply find_some_name_taken; eassumption.
      * intros k Hk. lia.
      * intros k Hk. apply Hfree. lia.
      * assumption.
      * rewrite Hl in Hl'. apply app_inv_head in Hl'. now subst l'.
    + intros Hp Hc.
      destruct (add_todos_returns (repeat (task t) (Z.to_nat count))) with (w := w)
        as (w1 & ->).
      { apply Forall_forall. intros x Hx. now apply in_repeat in Hx as ->. }
      unfold printed. rewrite raises_plain; [eauto | | simpl; now rewrite Hp].
      simpl. unfold PyStr.too_long in Hc. now rewrite Hc.
    + destruct (add_one_run (task t) w) as (k & Hf & Hrun).
      exists k. split; [assumption|]. intros Hr Hpos.
      destruct (Z.to_nat count) as [|n] eqn:En; [lia|].
      simpl. unfold bind. rewrite Hrun. unfold printed.
      change (raises (appended w (task t) k) (AddedTask (candidate (task t) k)))
        with (raises w (AddedTask (candidate (task t) k))).
      now rewrite Hr.
  - now intros ->.
Qed.

Lemma repeat_appends_copies_witness :
  (exists w1 l,
      repeat_task 1 3 foo_world = Returned true (w_print w1 (Repeated "foo" 3)) /\
      todos w1 = todos foo_world ++ l /\
      map task l = ["foo (1)"; "foo (2)"; "foo (3)"]%string) /\
  (exists r,
      repeat_task 1 3 markup_world = Raised (appended markup_world "[/x]" 1) /\
      todos (appended markup_world "[/x]" 1) = todos markup_world ++ [r] /\
      task r = "[/x] (1)"%string).
Proof.
  split.
  - destruct (repeat_appends_copies foo_world 1 3) as [H _].
    destruct (H (mkTodo 1 "foo" false "" None) eq_refl) as (Hret & Hplain & _).
    destruct (Hplain eq_refl eq_refl) as (w' & Hrun).
    destruct (Hret true w' Hrun) as (w1 & l & _ & _ & -> & Hl & _ & _ & _ & Hlab).
    exists w1, l. split; [exact Hrun|]. split; [exact Hl|].
    rewrite Hlab; [reflexivity|].
    intros k Hk. change (Z.to_nat 3) with 3%nat in Hk.
    destruct k as [|[|[|[|k]]]]; try lia; reflexivity.
  - destruct (repeat_appends_copies markup_world 1 3) as [H _].
    destruct (H (mkTodo 1 "[/x]" false "" None) eq_refl) as (_ & _ & k & Hf & Hraise).
    assert (Hk : first_free (todos markup_world) "[/x]" 1).
    { split; [reflexivity|]. intros j Hj. destruct j; [reflexivity | lia]. }
    assert (k = 1%nat) by (eapply first_free_unique; eassumption). subst k.
    eexists. split; [apply Hraise; [reflexivity | lia]|]. split; reflexivity.
Defined.

(** ** Listing and search *)














(** A table of printable records is printed. *)
Lemma raises_table (w : world) (l : list todo) :
  Forall printable l -> raises w (PrintTable (map table_row l)) = false.
Proof.
  intros H. apply raises_plain; simpl.
  - induction H as [|t l (Hid & _) _ IH]; simpl; [reflexivity|].
    unfold PyStr.too_long in Hid. now rewrite Hid, IH.
  - induction H as [|t l (_ & Ht & Hc & Hd) _ IH]; simpl; [reflexivity|].
    rewrite Ht, Hc. simpl.
    destruct (done t); [destruct (completed_at t)|]; simpl; rewrite ?Hd; exact IH.
Qed.

Lemma raises_constant (w : world) (m : msg) :
  msg_numbers m = [] -> msg_texts m = [] -> raises w m = false.
Proof. intros Hn Ht. apply raises_plain; now rewrite ?Hn, ?Ht. Qed.

Lemma list_todos_run (filter_status search_term : option string) (w : world) :
  list_todos filter_status search_term w =
  printed w (listing (todos w)
                     (search_filter search_term (status_filter filter_status (todos w))))
          tt.
Proof.
  unfold list_todos, bind, get_todos, listing.
  destruct (todos w) as [|x l]; [reflexivity|].
  now destruct (search_filter search_term (status_filter filter_status (x :: l))).
Qed.



(** ** Runs of [main] *)

Lemma save_todos_run (w : world) :
  save_todos w = if dump_raises (todos w) then Raised (w_spoil w)
                 else Returned tt (w_save w).
Proof. reflexivity. Qed.

Lemma finish_run (action_taken : bool) (w : world) :
  finish action_taken w =
  if action_taken
  then printed (w_print w UpdatedList) (listing (todos w) (todos w)) 0
  else Returned 0 w.
Proof.
  unfold finish, bind. destruct action_taken; [|reflexivity].
  change (print UpdatedList w) with (Returned tt (w_print w UpdatedList)).
  cbv iota beta. rewrite list_todos_run. unfold printed. simpl search_filter.
  simpl status_filter. now destruct (raises _ _).
Qed.

Lemma listing_all_printable (w : world) (l : list todo) :
  Forall printable l -> raises w (listing l l) = false.
Proof.
  intros H. destruct l as [|x l]; [reflexivity|]. now apply raises_table.
Qed.

(** The end of a command that writes: the list is saved when [json.dump]
    accepts it, whichever way the final listing ends; the status is 0 when
    the run returns, which it does when nothing was done or when the
    records are printable. *)
Lemma save_finish (action_taken : bool) (w : world) :
  dump_raises (todos w) = false ->
  exists w',
    leaves ((save_todos ;;; finish action_taken) w) w' /\
    todos w' = todos w /\ file w' = Some (todos w) /\
    (forall m, In m (console w) -> In m (console w')) /\
    (forall code w'', (save_todos ;;; finish action_taken) w = Returned code w'' ->
                      code = 0 /\ w'' = w') /\
    (action_taken = false \/ Forall printable (todos w) ->
     (save_todos ;;; finish action_taken) w = Returned 0 w').
Proof.
  intros Hd. unfold bind. rewrite save_todos_run, Hd, finish_run.
  destruct action_taken.
  - unfold printed.
    destruct (raises (w_print (w_save w) UpdatedList) _) eqn:E.
    + exists (w_print (w_save w) UpdatedList). repeat split; try discriminate.
      * intros m Hm. simpl. apply in_or_app. now left.
      * intros [Hf | Hp]; [discriminate|].
        change (todos (w_print (w_save w) UpdatedList)) with (todos w) in E.
        now rewrite listing_all_printable in E.
    + eexists. split; [reflexivity|]. store_simpl. repeat split; try congruence.
      intros m Hm. apply in_or_app. left. apply in_or_app. now left.
  - exists (w_save w). repeat split; auto; congruence.
Qed.

(** When a command that writes returns, the list was saved and the status
    is 0. *)
Lemma save_finish_returned (action_taken : bool) (w : world) (code : Z) (w' : world) :
  (save_todos ;;; finish action_taken) w = Returned code w' ->
  code = 0 /\ todos w' = todos w /\ file w' = Some (todos w) /\
  dump_raises (todos w) = false /\
  (forall m, In m (console w) -> In m (console w')).
Proof.
  intros Hrun. destruct (dump_raises (todos w)) eqn:Hd.
  - unfold bind in Hrun. rewrite save_todos_run, Hd in Hrun. discriminate.
  - destruct (save_finish action_taken w Hd) as (w1 & _ & Ht & Hf & Hc & Hret & _).
    destruct (Hret _ _ Hrun) as [-> ->]. auto.
Qed.


Lemma main_one_id (w : world) :
  main (remove_cmd ["0"%string]) w
  = (b <- remove_todo 0 ;; save_todos ;;; finish (b || false)) (w_load w) /\
  main (complete_cmd ["0"%string]) w
  = (b <- complete_todo 0 ;; save_todos ;;; finish (b || false)) (w_load w) /\
  main (pending_cmd ["0"%string]) w
  = (b <- pending_todo 0 ;; save_todos ;;; finish (b || false)) (w_load w).
Proof.
  repeat split.
  - unfold main. change (parse_args (remove_cmd ["0"%string]))
      with (Some (mkNamespace false false false None None (Some [0]) false None
                              false None false None None)).
    unfold bind at 1, load_todos, dispatch, for_each_id; cbn [args_list
      args_list_completed args_list_pending args_search args_add args_remove
      truthy_str truthy_list].
    change (mkWorld _ (console w) (clock w) (ticks w) (file w) (print_raises w))
      with (w_load w).
    unfold bind, ret. destruct (remove_todo 0 (w_load w)) as [b w1 | w1 |]; reflexivity.
  - unfold main. change (parse_args (complete_cmd ["0"%string]))
      with (Some (mkNamespace false false false None None None false (Some [0])
                              false None false None None)).
    unfold bind at 1, load_todos, dispatch, for_each_id; cbn [args_list
      args_list_completed args_list_pending args_search args_add args_remove
      args_remove_all args_complete truthy_str truthy_list].
    change (mkWorld _ (console w) (clock w) (ticks w) (file w) (print_raises w))
      with (w_load w).
    unfold bind, ret. destruct (complete_todo 0 (w_load w)) as [b w1 | w1 |]; reflexivity.
  - unfold main. change (parse_args (pending_cmd ["0"%string]))
      with (Some (mkNamespace false false false None None None false None
                              false (Some [0]) false None None)).
    unfold bind at 1, load_todos, dispatch, for_each_id; cbn [args_list
      args_list_completed args_list_pending args_search args_add args_remove
      args_remove_all args_complete args_complete_all args_pending
      truthy_str truthy_list].
    change (mkWorld _ (console w) (clock w) (ticks w) (file w) (print_raises w))
      with (w_load w).
    unfold bind, ret. destruct (pending_todo 0 (w_load w)) as [b w1 | w1 |]; reflexivity.
Qed.



(** ** Validation of ids on the command line *)

(** [--update] and [--repeat] pass their values through
    [valid_positive_integer]: a value it refuses ends the run with status 1
    before the core is called and before anything is saved. *)
Lemma update_repeat_reject (w : world) (value other : string) (e : msg) :
  valid_positive_integer value = inl e ->
  main (update_cmd value other) w = printed (w_load w) e 1 /\
  main (repeat_cmd value other) w = printed (w_load w) e 1 /\
  file (w_load w) = file w.
Proof.
  intros H. unfold main.
  change (parse_args (update_cmd value other))
    with (Some (mkNamespace false false false None None None false None false None
                            false (Some (value, other)) None)).
  change (parse_args (repeat_cmd value other))
    with (Some (mkNamespace false false false None None None false None false None
                            false None (Some (value, other)))).
  unfold bind at 1 3, load_todos, dispatch. simpl. rewrite H.
  rewrite !print_ret. auto.
Qed.

Lemma zero_is_refused :
  valid_positive_integer "0" = inl (ErrorNotPositive "0") /\
  valid_positive_integer "abc" = inl (ErrorNotInteger "abc") /\
  valid_positive_integer "-3" = inl (ErrorNotPositive "-3").
Proof. repeat split. Qed.

(** [--remove], [--complete] and [--pending] are declared with [type=int]:
    a value that is not an integer is refused by the parser with status 2,
    nothing being loaded or saved. *)
Lemma non_integer_id_rejected (w : world) :
  main (remove_cmd ["abc"%string]) w = Returned 2 (w_print w UsageError) /\
  main (complete_cmd ["abc"%string]) w = Returned 2 (w_print w UsageError) /\
  main (pending_cmd ["abc"%string]) w = Returned 2 (w_print w UsageError).
Proof. repeat split. Qed.

(** C2 fails on the code for [--remove], [--complete] and [--pending]: the
    value 0 passes [type=int], the core function runs on id 0, then the
    list is written back to the file, and when the run returns its status
    is 0 and the file holds the list.  With no data file, the run returns
    with status 0 and has created one. *)
Theorem zero_id_reaches_core (w : world) :
  (main (remove_cmd ["0"%string]) w
   = (b <- remove_todo 0 ;; save_todos ;;; finish (b || false)) (w_load w) /\
   forall code w', main (remove_cmd ["0"%string]) w = Returned code w' ->
                   code = 0 /\ file w' = Some (todos w')) /\
  (main (complete_cmd ["0"%string]) w
   = (b <- complete_todo 0 ;; save_todos ;;; finish (b || false)) (w_load w) /\
   forall code w', main (complete_cmd ["0"%string]) w = Returned code w' ->
                   code = 0 /\ file w' = Some (todos w')) /\
  (main (pending_cmd ["0"%string]) w
   = (b <- pending_todo 0 ;; save_todos ;;; finish (b || false)) (w_load w) /\
   forall code w', main (pending_cmd ["0"%string]) w = Returned code w' ->
                   code = 0 /\ file w' = Some (todos w')) /\
  (file w = None ->
   exists w', main (remove_cmd ["0"%string]) w = Returned 0 w' /\
              file w' = Some [] /\ file w' <> file w /\
              In (NotFound 0) (console w')).
Proof.
  destruct (main_one_id w) as (Hr & Hc & Hp).
  assert (Hret : forall (m : M bool) code w',
             (b <- m ;; save_todos ;;; finish (b || false)) (w_load w)
             = Returned code w' ->
             code = 0 /\ file w' = Some (todos w')).
  { intros m code w' H. unfold bind at 1 in H.
    destruct (m (w_load w)) as [b w1 | w1 |]; try discriminate.
    apply save_finish_returned in H as (-> & Ht & Hf & _). now rewrite Ht. }
  split; [|split; [|split]].
  - split; [assumption|]. rewrite Hr. apply Hret.
  - split; [assumption|]. rewrite Hc. apply Hret.
  - split; [assumption|]. rewrite Hp. apply Hret.
  - intros Hnone. rewrite Hr. unfold bind at 1. rewrite remove_todo_run.
    unfold w_load. rewrite Hnone. cbn [todos find_todo_by_id].
    unfold printed. rewrite raises_NotFound.
    change (PyStr.too_long 0) with false. cbv iota.
    match goal with
    | |- context [(save_todos ;;; finish ?b) ?w0] =>
        destruct (save_finish b w0 eq_refl) as (w' & _ & _ & Hfile & Hcons & _ & Hrun)
    end.
    exists w'. split; [apply Hrun; now left|]. rewrite Hfile.
    split; [reflexivity|]. split; [simpl; discriminate|].
    apply Hcons. simpl. apply in_or_app. right. now left.
Qed.

Lemma zero_id_reaches_core_witness :
  exists w', main (remove_cmd ["0"%string]) (empty_world silent_clock None)
             = Returned 0 w' /\
             file w' = Some [] /\ In (NotFound 0) (console w').
Proof.
  destruct (zero_id_reaches_core (empty_world silent_clock None))
    as (_ & _ & _ & H).
  destruct (H eq_refl) as (w' & Hm & Hf & _ & Hc).
  exists w'. auto.
Defined.

(** ** The scenarios of the specification, by evaluation *)

Example scenario_first_add :
  add_todos ["buy milk"%string] (empty_world silent_clock None)
  = Returned tt (added (empty_world silent_clock None) "buy milk" 0) /\
  todos (added (empty_world silent_clock None) "buy milk" 0)
  = [mkTodo 1 "buy milk" false "" None].
Proof. split; reflexivity. Qed.

Example scenario_list_pending :
  let w := mkWorld [mkTodo 1 "buy milk" false "" None;
                    mkTodo 2 "clean" true "" (Some EmptyString)]
                   [] silent_clock 0 None rich_strict in
  list_todos (Some "pending"%string) None w
  = Returned tt (w_print w (PrintTable [mkRow "1" "buy milk" false ""
                                              (Some EmptyString)])).
Proof. reflexivity. Qed.

Example scenario_search_ignores_case :
  let w := mkWorld [mkTodo 1 "Buy Milk" false "" None;
                    mkTodo 2 "clean" false "" None]
                   [] silent_clock 0 None rich_strict in
  list_todos None (Some "MILK"%string) w
  = Returned tt (w_print w (PrintTable [mkRow "1" "Buy Milk" false ""
                                              (Some EmptyString)])).
Proof. reflexivity. Qed.

Example scenario_remove_all :
  remove_all_todos one_task_world
  = Returned true (w_print (w_todos one_task_world []) AllRemoved) /\
  remove_all_todos (empty_world silent_clock None)
  = Returned false (w_print (empty_world silent_clock None) AlreadyEmpty).
Proof. split; reflexivity. Qed.

(** A label that closes a tag nobody opened: the record is appended, rich
    refuses the confirmation, and [main] ends before [save_todos]. *)
Example scenario_markup_label :
  add_todos ["[/x]"%string] (empty_world silent_clock None)
  = Raised (appended (empty_world silent_clock None) "[/x]" 0) /\
  main (add_cmd ["[/x]"%string]) (empty_world silent_clock None)
  = Raised (appended (empty_world silent_clock None) "[/x]" 0) /\
  exit_status (main (add_cmd ["[/x]"%string]) (empty_world silent_clock None))
  = Some 1 /\
  file (appended (empty_world silent_clock None) "[/x]" 0) = None.
Proof. repeat split. Qed.

(** A label that closes and reopens the tag of the message around it: the
    update is confirmed and saved, then rich refuses the table of the final
    listing, and the run ends with status 1, the file rewritten. *)
Example scenario_markup_update :
  let renamed := mkTodo 1 "[/bold green][bold green]" false "" None in
  exists w',
    main (update_cmd "1" "[/bold green][bold green]") restyled_file = Raised w' /\
    exit_status (main (update_cmd "1" "[/bold green][bold green]") restyled_file)
    = Some 1 /\
    file w' = Some [renamed] /\
    file restyled_file = Some [mkTodo 1 "a" false "" None] /\
    console w' = [NameUpdated "a" "[/bold green][bold green]"; UpdatedList].
Proof. eexists. repeat split. Qed.

(** * Further properties of the program *)

(** ** Lookup *)

Lemma find_app (l1 l2 : list todo) (i : Z) :
  find_todo_by_id (l1 ++ l2) i =
  match find_todo_by_id l1 i with
  | Some t => Some t
  | None => find_todo_by_id l2 i
  end.
Proof.
  induction l1 as [|x l1 IH]; simpl; [reflexivity|].
  now destruct (id x =? i).
Qed.

(** X1.  [find_todo_by_id] returns the first record with the id, whatever
    follows it, and nothing exactly when no record has the id. *)
Theorem find_first_match (l : list todo) (i : Z) :
  (forall t, find_todo_by_id l i = Some t <->
             exists l1 l2, l = l1 ++ t :: l2 /\ id t = i /\
                           forall x, In x l1 -> id x <> i) /\
  (find_todo_by_id l i = None <-> forall x, In x l -> id x <> i).
Proof.
  split; [|apply find_none_iff].
  intros t. split.
  - intros H. destruct (find_some_split _ _ _ H) as (l1 & l2 & Hl & Hid & Hn).
    exists l1, l2. split; [assumption|]. split; [assumption|].
    now apply find_none_iff.
  - intros (l1 & l2 & -> & Hid & Hn). apply find_none_iff in Hn.
    rewrite find_app, Hn. simpl. now rewrite Hid, Z.eqb_refl.
Qed.

(** ** Remove *)

(** X2.  Remove of an id that designates [t] takes exactly [t] out of the
    list, the other records keeping their order, and then prints the
    confirmation and returns true, or raises when rich refuses the
    confirmation (never for a plain label); the file is not touched.  In
    the list that the call leaves, every other id designates what it
    designated; and with unique ids the removed id designates nothing. *)
Theorem remove_deletes_designated (w : world) (i : Z) (t : todo) :
  find_todo_by_id (todos w) i = Some t ->
  exists l1 l2,
    todos w = l1 ++ t :: l2 /\
    remove_todo i w = printed (w_todos w (l1 ++ l2)) (RemovedTask (task t)) true /\
    (plain (task t) ->
     remove_todo i w
     = Returned true (w_print (w_todos w (l1 ++ l2)) (RemovedTask (task t)))) /\
    (forall w', leaves (remove_todo i w) w' ->
                todos w' = l1 ++ l2 /\ file w' = file w) /\
    (forall j, j <> i ->
               find_todo_by_id (l1 ++ l2) j = find_todo_by_id (todos w) j) /\
    (NoDup (map id (todos w)) -> find_todo_by_id (l1 ++ l2) i = None).
Proof.
  intros Hfind. destruct (find_some_split _ _ _ Hfind) as (l1 & l2 & Hl & Hid & Hn).
  exists l1, l2. split; [assumption|].
  assert (E : list_remove (todos w) t = l1 ++ l2).
  { rewrite Hl. apply list_remove_split. now rewrite Hid. }
  rewrite remove_todo_run, Hfind, E. split; [reflexivity|]. split; [|split; [|split]].
  - intros Hp. unfold printed.
    rewrite raises_plain; [reflexivity | reflexivity | simpl; now rewrite Hp].
  - intros w' Hw. unfold printed in Hw. destruct (raises _ _); simpl in Hw;
      subst w'; split; reflexivity.
  - intros j Hj. rewrite Hl, !find_app. simpl.
    destruct (Z.eqb_spec (id t) j) as [Ej | _]; [congruence | reflexivity].
  - intros Hnd. rewrite find_app, Hn. apply find_none_iff.
    intros x Hx Ex. rewrite Hl, map_app in Hnd. simpl in Hnd.
    apply NoDup_remove_2 in Hnd. apply Hnd. apply in_or_app. right.
    rewrite Hid, <- Ex. now apply in_map.
Qed.

Lemma remove_deletes_designated_witness :
  exists w', remove_todo 1 one_task_world = Returned true w' /\
             find_todo_by_id (todos w') 1 = None.
Proof.
  destruct (remove_deletes_designated one_task_world 1
              (mkTodo 1 "a" false "" None) eq_refl)
    as (l1 & l2 & _ & _ & Hrun & _ & _ & Hgone).
  eexists. split; [apply Hrun; reflexivity|]. apply Hgone.
  simpl. repeat constructor. intros [].
Defined.

(** ** Update *)

(** X3.  Update of an id that designates [t] replaces the label of [t] in
    place and touches nothing else, and then prints the confirmation and
    returns true, or raises when rich refuses the confirmation (never when
    both labels are plain).  The new label is not compared with the other
    labels, so a label already carried by another record ends up carried
    twice. *)
Theorem update_replaces_label (w : world) (i : Z) (new_name : string) (t : todo) :
  find_todo_by_id (todos w) i = Some t ->
  exists l1 l2,
    let renamed := mkTodo (id t) new_name (done t) (created_at t) (completed_at t) in
    todos w = l1 ++ t :: l2 /\
    update_todo i new_name w
    = printed (w_todos w (l1 ++ renamed :: l2)) (NameUpdated (task t) new_name) true /\
    (plain (task t) -> plain new_name ->
     update_todo i new_name w
     = Returned true (w_print (w_todos w (l1 ++ renamed :: l2))
                              (NameUpdated (task t) new_name))) /\
    (forall w', leaves (update_todo i new_name w) w' ->
                todos w' = l1 ++ renamed :: l2 /\ file w' = file w) /\
    (name_taken (l1 ++ l2) new_name = true ->
     ~ NoDup (map task (l1 ++ renamed :: l2))).
Proof.
  intros Hfind. destruct (find_some_split _ _ _ Hfind) as (l1 & l2 & Hl & Hid & Hn).
  exists l1, l2. cbv zeta. split; [assumption|].
  assert (E : assign_found (todos w) i (set_task new_name)
              = l1 ++ set_task new_name t :: l2).
  { rewrite Hl, <- Hid. apply assign_found_split. now rewrite Hid. }
  rewrite update_todo_run, Hfind, E. split; [reflexivity|]. split; [|split].
  - intros Hp Hq. unfold printed.
    rewrite raises_plain; [reflexivity | reflexivity | simpl; now rewrite Hp, Hq].
  - intros w' Hw. unfold printed in Hw. destruct (raises _ _); simpl in Hw;
      subst w'; split; reflexivity.
  - intros Htaken Hnd. rewrite map_app in Hnd. simpl in Hnd.
    apply NoDup_remove_2 in Hnd. apply Hnd.
    apply name_taken_iff in Htaken. now rewrite map_app in Htaken.
Qed.

Lemma update_replaces_label_witness :
  exists w', update_todo 1 "b" one_task_world = Returned true w' /\
             todos w' = [mkTodo 1 "b" false "" None].
Proof.
  destruct (update_replaces_label one_task_world 1 "b"
              (mkTodo 1 "a" false "" None) eq_refl)
    as (l1 & l2 & Hl & _ & Hrun & _).
  cbv zeta in Hrun. eexists. split; [apply Hrun; reflexivity|].
  destruct l1 as [|x l1]; simpl in Hl.
  - injection Hl as <-. reflexivity.
  - injection Hl as _ Hl. destruct l1; discriminate.
Defined.

(** ** Repeating a transition *)

(** X4.  After a Complete of an id that designates a record, however that
    call ended, a second Complete of the same id changes nothing: it only
    prints the already-completed message (or raises when rich refuses it),
    and the record keeps the completion time it got first.  Likewise a
    second Pending. *)
Theorem second_transition_is_noop (w : world) (i : Z) (t : todo) :
  find_todo_by_id (todos w) i = Some t ->
  (exists w1 t1,
      leaves (complete_todo i w) w1 /\
      (plain (task t) -> complete_todo i w = Returned true w1) /\
      find_todo_by_id (todos w1) i = Some t1 /\
      done t1 = true /\ task t1 = task t /\
      (done t = true -> t1 = t) /\
      (done t = false -> completed_at t1 = Some (clock w (ticks w))) /\
      complete_todo i w1 = printed w1 (AlreadyCompleted (task t1)) true) /\
  (exists w1 t1,
      leaves (pending_todo i w) w1 /\
      (plain (task t) -> pending_todo i w = Returned true w1) /\
      find_todo_by_id (todos w1) i = Some t1 /\
      done t1 = false /\ task t1 = task t /\
      (done t = false -> t1 = t) /\
      pending_todo i w1 = printed w1 (AlreadyPending (task t1)) true).
Proof.
  intros Hfind. destruct (find_some_split _ _ _ Hfind) as (l1 & l2 & Hl & Hid & Hn).
  subst i.
  assert (Hf : forall x, id x = id t ->
                         find_todo_by_id (l1 ++ x :: l2) (id t) = Some x).
  { intros x Hx. rewrite find_app, Hn. simpl. now rewrite Hx, Z.eqb_refl. }
  assert (Ha : forall f, assign_found (todos w) (id t) f = l1 ++ f t :: l2).
  { intros f. rewrite Hl. now apply assign_found_split. }
  split.
  - destruct (complete_todo_leaves w (id t) t Hfind) as (w1 & Hl1 & Ht1 & _ & Hr1).
    destruct (done t) eqn:Hd.
    + exists w1, t. split; [exact Hl1|]. split; [exact Hr1|].
      split; [now rewrite Ht1|]. split; [assumption|]. split; [reflexivity|].
      split; [reflexivity|]. split; [discriminate|].
      now rewrite complete_todo_run, Ht1, Hfind, Hd.
    + exists w1, (set_completed (clock w (ticks w)) t). rewrite Ha in Ht1.
      split; [exact Hl1|]. split; [exact Hr1|].
      split; [rewrite Ht1; now apply Hf|]. split; [reflexivity|].
      split; [reflexivity|]. split; [discriminate|]. split; [reflexivity|].
      now rewrite complete_todo_run, Ht1, Hf.
  - destruct (pending_todo_leaves w (id t) t Hfind) as (w1 & Hl1 & Ht1 & _ & Hr1).
    destruct (done t) eqn:Hd.
    + exists w1, (set_pending t). rewrite Ha in Ht1.
      split; [exact Hl1|]. split; [exact Hr1|].
      split; [rewrite Ht1; now apply Hf|]. split; [reflexivity|].
      split; [reflexivity|]. split; [discriminate|].
      now rewrite pending_todo_run, Ht1, Hf.
    + exists w1, t. split; [exact Hl1|]. split; [exact Hr1|].
      split; [now rewrite Ht1|]. split; [assumption|]. split; [reflexivity|].
      split; [reflexivity|].
      now rewrite pending_todo_run, Ht1, Hfind, Hd.
Qed.

Lemma second_transition_is_noop_witness :
  exists w1 t1,
    complete_todo 1 one_task_world = Returned true w1 /\
    complete_todo 1 w1 = Returned true (w_print w1 (AlreadyCompleted (task t1))).
Proof.
  destruct (second_transition_is_noop one_task_world 1
              (mkTodo 1 "a" false "" None) eq_refl)
    as [(w1 & t1 & _ & H1 & _ & _ & Hlab & _ & _ & H2) _].
  exists w1, t1. split; [now apply H1|].
  rewrite H2. unfold printed.
  rewrite raises_plain; [reflexivity | reflexivity |].
  simpl. rewrite Hlab. reflexivity.
Defined.

(** ** Repeat without copies *)

(** X6.  [repeat_task] itself accepts any count: with a count of zero or
    less it appends nothing and goes on to the confirmation, which it
    prints before returning true unless rich refuses the label.  (Only
    [main] requires the count to be positive.) *)
Theorem repeat_nonpositive_count (w : world) (i count : Z) (t : todo) :
  find_todo_by_id (todos w) i = Some t ->
  count <= 0 ->
  repeat_task i count w = printed w (Repeated (task t) count) true /\
  (plain (task t) -> PyStr.too_long count = false ->
   repeat_task i count w = Returned true (w_print w (Repeated (task t) count))).
Proof.
  intros Hfind Hc. rewrite repeat_task_run, Hfind.
  replace (Z.to_nat count) with 0%nat by lia. simpl. split; [reflexivity|].
  intros Hp Hl. unfold printed. rewrite raises_plain; [reflexivity | |].
  - simpl. unfold PyStr.too_long in Hl. now rewrite Hl.
  - simpl. now rewrite Hp.
Qed.

Lemma repeat_nonpositive_count_witness :
  repeat_task 1 (-2) one_task_world
  = Returned true (w_print one_task_world (Repeated "a" (-2))).
Proof.
  apply (repeat_nonpositive_count one_task_world 1 (-2)
           (mkTodo 1 "a" false "" None)); [reflexivity | lia | reflexivity
                                           | reflexivity].
Defined.

(** ** What a run of [main] can do to the data file *)

(** [add_todos] ends, and does not write the file. *)
Lemma add_todos_ends (new_tasks : list string) :
  forall w, exists w', leaves (add_todos new_tasks w) w' /\ file w' = file w.
Proof.
  induction new_tasks as [|name rest IH]; intros w; simpl.
  - now exists w.
  - destruct (add_one_run name w) as (k & _ & Hrun).
    unfold bind. rewrite Hrun. unfold printed. destruct (raises _ _).
    + now exists (appended w name k).
    + destruct (IH (w_print (appended w name k) (AddedTask (candidate name k))))
        as (w' & Hl & Hf).
      exists w'. split; assumption.
Qed.

(** So does every operation. *)
Lemma run_op_ends (o : op) (w : world) :
  exists w', leaves (run_op o w) w' /\ file w' = file w.
Proof.
  assert (Hp : forall (A : Type) w0 m (a : A),
             file w0 = file w ->
             exists w', leaves (printed w0 m a) w' /\ file w' = file w).
  { intros A w0 m a H0.
    destruct (printed_leaves w0 m a) as (w' & Hl & _ & Hf & _).
    exists w'. split; [assumption | congruence]. }
  destruct o; simpl.
  - destruct (add_todos_ends new_tasks w) as (w' & Hl & Hf).
    exists w'. unfold bind. now destruct (add_todos new_tasks w).
  - rewrite remove_todo_run. destruct find_todo_by_id; now apply Hp.
  - rewrite remove_all_todos_run. destruct (todos w); eexists; split; reflexivity.
  - rewrite complete_todo_run. destruct find_todo_by_id as [t|]; [|now apply Hp].
    destruct (done t); now apply Hp.
  - rewrite pending_todo_run. destruct find_todo_by_id as [t|]; [|now apply Hp].
    destruct (done t); now apply Hp.
  - rewrite complete_all_todos_run. destruct (todos w); eexists; split; reflexivity.
  - rewrite pending_all_todos_run. destruct (todos w); eexists; split; reflexivity.
  - rewrite update_todo_run. destruct find_todo_by_id; now apply Hp.
  - rewrite repeat_task_run. destruct find_todo_by_id as [t|]; [|now apply Hp].
    destruct (add_todos_ends (repeat (task t) (Z.to_nat repeat_count)) w)
      as (w1 & Hl & Hf).
    destruct (add_todos _ w) as [[] w2 | w2 |]; simpl in Hl; try contradiction;
      subst w2.
    + now apply Hp.
    + now exists w1.
Qed.

Section Kept.

Variable P : list todo -> Prop.
Hypothesis P_step :
  forall o w b w', run_op o w = Returned b w' -> P (todos w) -> P (todos w').

Lemma run_op_keeps (o : op) : keeps P (run_op o).
Proof.
  intros w. destruct (run_op_ends o w) as (w' & Hl & Hf).
  destruct (run_op o w) as [b w1 | w1 |] eqn:E; simpl in Hl;
    try contradiction; subst w1; [|assumption].
  split; [assumption|]. eapply P_step; eassumption.
Qed.

Lemma for_each_id_keeps (op : Z -> M bool) (ids : list Z) :
  (forall i, keeps P (op i)) -> forall b, keeps P (for_each_id op ids b).
Proof.
  intros Hop. induction ids as [|i ids IH]; intros b w; simpl.
  - auto.
  - unfold bind. specialize (Hop i w).
    destruct (op i w) as [b1 w1 | w1 |]; [|assumption..].
    specialize (IH (b1 || b)%bool w1). destruct Hop as [Hf1 HP1].
    destruct (for_each_id op ids (b1 || b) w1) as [b2 w2 | w2 |];
      [|congruence | assumption].
    destruct IH as [Hf2 HP2]. split; [congruence | auto].
Qed.

(** A branch of [main] that runs an operation, saves and finishes. *)
Lemma saved_branch (m : M bool) (w : world) :
  keeps P m ->
  exists w',
    leaves ((b <- m ;; save_todos ;;; finish b) w) w' /\
    (forall code w'', (b <- m ;; save_todos ;;; finish b) w = Returned code w'' ->
                      code = 0) /\
    file_fate P w w'.
Proof.
  intros Hm. specialize (Hm w). unfold bind at 1 3.
  destruct (m w) as [b w1 | w1 |]; [| |contradiction].
  - destruct Hm as [Hf1 HP1]. destruct (dump_raises (todos w1)) eqn:Hd.
    + exists (w_spoil w1). unfold bind. rewrite save_todos_run, Hd.
      split; [reflexivity|]. split; [discriminate|].
      right. right. split; [reflexivity | assumption].
    + destruct (save_finish b w1 Hd) as (w' & Hl & Ht & Hfile & _ & Hret & _).
      exists w'. split; [assumption|]. split.
      * intros code w'' H. now apply Hret in H.
      * right. left. rewrite Ht. auto.
  - exists w1. split; [reflexivity|]. split; [discriminate|]. now left.
Qed.

Lemma filters_incl (filter_status search_term : option string) (l : list todo) :
  incl (search_filter search_term (status_filter filter_status l)) l.
Proof.
  apply incl_tran with (status_filter filter_status l).
  - destruct search_term as [[|c term]|]; simpl;
      try apply incl_refl; apply incl_filter.
  - destruct filter_status as [fs|]; simpl; [|apply incl_refl].
    destruct (String.eqb fs "completed"); [apply incl_filter|].
    destruct (String.eqb fs "pending"); [apply incl_filter | apply incl_refl].
Qed.

(** A branch of [main] that only lists. *)
Lemma query_branch (filter_status search_term : option string) (w : world) :
  exists m,
    (list_todos filter_status search_term ;;; finish false) w = printed w m 0 /\
    (Forall printable (todos w) -> raises w m = false).
Proof.
  exists (listing (todos w)
                  (search_filter search_term (status_filter filter_status (todos w)))).
  unfold bind. rewrite list_todos_run. unfold printed. split.
  - now destruct (raises _ _).
  - intros Hp. unfold listing. destruct (todos w) as [|x l] eqn:E; [reflexivity|].
    pose proof (incl_Forall (filters_incl filter_status search_term (x :: l)) Hp)
      as Hs.
    destruct (search_filter _ _); [reflexivity|]. now apply raises_table.
Qed.

(** Every branch of the [if]/[elif] chain ends.  When it returns, the
    status is 0 or 1, and status 1 leaves the file untouched.  Whichever
    way it ends, the file is untouched, or holds the final list, or was
    spoiled by a [json.dump] that raised. *)
Lemma dispatch_outcome (args : namespace) (w : world) :
  exists w',
    leaves (dispatch args w) w' /\
    (forall code w'', dispatch args w = Returned code w'' ->
                      (code = 0 \/ code = 1) /\ (code = 1 -> file w'' = file w)) /\
    file_fate P w w'.
Proof.
  assert (Hq : forall fs st,
             exists w',
               leaves ((list_todos fs st ;;; finish false) w) w' /\
               (forall code w'',
                   (list_todos fs st ;;; finish false) w = Returned code w'' ->
                   (code = 0 \/ code = 1) /\ (code = 1 -> file w'' = file w)) /\
               file_fate P w w').
  { intros fs st. destruct (query_branch fs st w) as (m & -> & _).
    destruct (printed_leaves w m 0) as (w' & Hl & _ & Hf & _).
    exists w'. split; [assumption|]. split; [|now left].
    unfold printed. destruct (raises w m); [discriminate|].
    intros code w'' [= <- <-]. split; [now left | reflexivity]. }
  assert (Hs : forall m : M bool,
             keeps P m ->
             exists w',
               leaves ((b <- m ;; save_todos ;;; finish b) w) w' /\
               (forall code w'',
                   (b <- m ;; save_todos ;;; finish b) w = Returned code w'' ->
                   (code = 0 \/ code = 1) /\ (code = 1 -> file w'' = file w)) /\
               file_fate P w w').
  { intros m Hm. destruct (saved_branch m w Hm) as (w' & Hl & Hc & Hf).
    exists w'. split; [assumption|]. split; [|assumption].
    intros code w'' H. rewrite (Hc _ _ H). split; [now left | discriminate]. }
  assert (He : forall e,
             exists w',
               leaves ((print e ;;; ret 1) w) w' /\
               (forall code w'', (print e ;;; ret 1) w = Returned code w'' ->
                                 (code = 0 \/ code = 1) /\
                                 (code = 1 -> file w'' = file w)) /\
               file_fate P w w').
  { intros e. rewrite print_ret.
    destruct (printed_leaves w e 1) as (w' & Hl & _ & Hf & _).
    exists w'. split; [assumption|]. split; [|now left].
    unfold printed. destruct (raises w e); [discriminate|].
    intros code w'' [= <- <-]. split; [now right | reflexivity]. }
  unfold dispatch.
  destruct (args_list args); [apply Hq|].
  destruct (args_list_completed args); [apply Hq|].
  destruct (args_list_pending args); [apply Hq|].
  destruct (truthy_str (args_search args)) as [term|]; [apply Hq|].
  destruct (truthy_list (args_add args)) as [new_tasks|].
  { destruct (Hs (run_op (Add new_tasks)) (run_op_keeps _)) as (w' & Hl & Hc & Hf).
    assert (E : (add_todos new_tasks ;;; save_todos ;;; finish true) w
                = (b <- run_op (Add new_tasks) ;; save_todos ;;; finish b) w).
    { simpl. unfold bind. now destruct (add_todos new_tasks w) as [[] w1 | w1 |]. }
    rewrite E. eauto. }
  destruct (args_remove args) as [ids|].
  { apply Hs. apply for_each_id_keeps. intros i. apply (run_op_keeps (Remove i)). }
  destruct (args_remove_all args); [apply Hs, (run_op_keeps RemoveAll)|].
  destruct (args_complete args) as [ids|].
  { apply Hs. apply for_each_id_keeps. intros i. apply (run_op_keeps (Complete i)). }
  destruct (args_complete_all args); [apply Hs, (run_op_keeps CompleteAll)|].
  destruct (args_pending args) as [ids|].
  { apply Hs. apply for_each_id_keeps. intros i. apply (run_op_keeps (Pending i)). }
  destruct (args_pending_all args); [apply Hs, (run_op_keeps PendingAll)|].
  destruct (args_update args) as [[value new_name]|].
  { destruct (valid_positive_integer value) as [e | todo_id]; [apply He|].
    apply Hs, (run_op_keeps (Update todo_id new_name)). }
  destruct (args_repeat args) as [[value count_value]|].
  { destruct (valid_positive_integer value) as [e | todo_id]; [apply He|].
    destruct (valid_positive_integer count_value) as [e | count]; [apply He|].
    apply Hs, (run_op_keeps (Repeat todo_id count)). }
  exists (w_print w Help). split; [reflexivity|]. split; [|now left].
  intros code w'' [= <- <-]. split; [now left | reflexivity].
Qed.

End Kept.

Lemma well_kept_step (o : op) (w : world) (b : bool) (w' : world) :
  run_op o w = Returned b w' -> well_kept (todos w) -> well_kept (todos w').
Proof.
  intros Hrun [Hs Hc]. split.
  - eapply run_op_sorted; eassumption.
  - eapply run_op_consistent; eassumption.
Qed.

Lemma main_parsed (c : cmdline) (args : namespace) (w : world) :
  parse_args c = Some args -> main c w = dispatch args (w_load w).
Proof. intros H. unfold main. now rewrite H. Qed.

(** X7.  Every run of [main] ends, with exit status 0, 1 or 2; status 2 is
    the parser refusing the command line.  A run that returns with a status
    other than 0 leaves the data file as it was.  Whichever way the run
    ends, the data file is as it was, or holds the list that the run ends
    with, or was spoiled by [json.dump] raising on that list. *)
Theorem main_outcome (c : cmdline) (w : world) :
  exists code w',
    leaves (main c w) w' /\
    exit_status (main c w) = Some code /\
    (code = 0 \/ code = 1 \/ code = 2) /\
    (code = 2 <-> parse_args c = None) /\
    (forall w'', main c w = Returned code w'' -> code <> 0 -> file w'' = file w) /\
    (file w' = file w \/ file w' = Some (todos w') \/
     (file w' = None /\ dump_raises (todos w') = true)).
Proof.
  destruct (parse_args c) as [args|] eqn:E.
  - rewrite (main_parsed _ _ _ E).
    destruct (dispatch_outcome (fun _ => True) (fun _ _ _ _ _ _ => I) args (w_load w))
      as (w' & Hl & Hret & Hfate).
    assert (Hfile : file w' = file w \/ file w' = Some (todos w') \/
                    (file w' = None /\ dump_raises (todos w') = true)).
    { destruct Hfate as [H | [[H _] | H]]; auto. }
    destruct (dispatch args (w_load w)) as [code w1 | w1 |] eqn:D;
      simpl in Hl; try contradiction; subst w1.
    + destruct (Hret code w' eq_refl) as [Hcode H1].
      exists code, w'. split; [reflexivity|]. split; [reflexivity|].
      split; [tauto|]. split.
      { split; [intros ->; destruct Hcode; discriminate | discriminate]. }
      split; [|assumption].
      intros w'' [= <-] Hne. apply H1. destruct Hcode; congruence.
    + exists 1, w'. split; [reflexivity|]. split; [reflexivity|].
      split; [tauto|]. split; [split; discriminate|].
      split; [discriminate | assumption].
  - unfold main. rewrite E. exists 2, (w_print w UsageError).
    split; [reflexivity|]. split; [reflexivity|]. split; [tauto|].
    split; [tauto|]. split; [intros w'' [= <-] _; reflexivity | now left].
Qed.

(** X8.  Let the data file hold a list whose ids are strictly increasing
    and whose completion times are consistent with the flags.  Every run of
    [main], whatever the command line and whichever way it ends, leaves the
    file holding such a list, unless [json.dump] raised on the list being
    saved, which spoils the file. *)
Theorem main_keeps_file_well_kept (c : cmdline) (w : world) (l : list todo) :
  file w = Some l -> well_kept l ->
  exists w',
    leaves (main c w) w' /\
    ((exists l', file w' = Some l' /\ well_kept l') \/
     (file w' = None /\ dump_raises (todos w') = true)).
Proof.
  intros Hfile Hl. destruct (parse_args c) as [args|] eqn:E.
  - rewrite (main_parsed _ _ _ E).
    destruct (dispatch_outcome well_kept well_kept_step args (w_load w))
      as (w' & Hleaves & _ & Hfate).
    exists w'. split; [assumption|].
    destruct Hfate as [Hsame | [[Hsaved HP] | Hspoil]].
    + left. exists l. split; [now rewrite Hsame | assumption].
    + left. exists (todos w'). split; [assumption|]. apply HP.
      unfold w_load. cbn [todos]. now rewrite Hfile.
    + now right.
  - unfold main. rewrite E. exists (w_print w UsageError).
    split; [reflexivity|]. left. now exists l.
Qed.

Lemma main_keeps_file_well_kept_witness :
  exists w',
    leaves (main (add_cmd ["a"%string]) one_task_file) w' /\
    ((exists l', file w' = Some l' /\ well_kept l') \/
     (file w' = None /\ dump_raises (todos w') = true)).
Proof.
  apply (main_keeps_file_well_kept (add_cmd ["a"%string]) one_task_file
           [mkTodo 1 "a" false "" None]); [reflexivity|].
  split.
  - simpl. repeat constructor.
  - constructor; [apply consistent_pending; reflexivity | constructor].
Defined.




(** ** Ids as text: printed by the listing, read by the command line *)

Lemma digits_step (c : ascii) (r : string) (acc : Z) (prev : bool) :
  PyStr.is_digit c = true ->
  PyStr.digits (String c r) acc prev = PyStr.digits r (10 * acc + PyStr.digit_val c) true.
Proof. intros H. cbn [PyStr.digits]. now rewrite H. Qed.

Lemma digits_of_uint (d : Decimal.uint) :
  forall acc prev,
    d <> Decimal.Nil \/ prev = true ->
    PyStr.digits (NilEmpty.string_of_uint d) acc prev = Some (uint_value d acc).
Proof.
  induction d; intros acc prev H;
    try (cbn [NilEmpty.string_of_uint uint_value];
         rewrite digits_step by reflexivity;
         rewrite IHd by (now right);
         first [ reflexivity
               | change (PyStr.digit_val "0"%char) with 0; now rewrite Z.add_0_r ]).
  simpl. destruct H as [H | ->]; [congruence | reflexivity].
Qed.

Lemma uint_value_acc (d : Decimal.uint) :
  forall acc, uint_value d (Zpos acc) = Zpos (Pos.of_uint_acc d acc).
Proof.
  induction d; intros acc; cbn [uint_value Pos.of_uint_acc]; try reflexivity;
    rewrite <- IHd; f_equal; lia.
Qed.

Lemma uint_value_of_uint (d : Decimal.uint) :
  uint_value d 0 = Z.of_N (Pos.of_uint d).
Proof.
  induction d; cbn [uint_value Pos.of_uint]; try reflexivity; try assumption;
    apply (uint_value_acc d).
Qed.

Lemma uint_value_to_uint (p : positive) : uint_value (Pos.to_uint p) 0 = Zpos p.
Proof. now rewrite uint_value_of_uint, DecimalPos.Unsigned.of_to. Qed.

Lemma rev_str_rev_str (s : string) :
  forall a b, PyStr.rev_str (PyStr.rev_str s a) b = PyStr.rev_str a (s ++ b).
Proof.
  induction s as [|c s IH]; intros a b; simpl; [reflexivity|].
  now rewrite IH.
Qed.

Lemma rev_str_chars (s : string) :
  forall acc c,
    In c (list_ascii_of_string (PyStr.rev_str s acc)) ->
    In c (list_ascii_of_string s) \/ In c (list_ascii_of_string acc).
Proof.
  induction s as [|x s IH]; intros acc c H; simpl in *; [now right|].
  destruct (IH _ _ H) as [H' | [H' | H']]; auto.
Qed.

Lemma lstrip_no_space (s : string) :
  (forall c, In c (list_ascii_of_string s) -> PyStr.is_space c = false) ->
  PyStr.lstrip s = s.
Proof.
  destruct s as [|c s]; simpl; intros H; [reflexivity|].
  now rewrite (H c) by now left.
Qed.

(** [strip] leaves a text without blanks as it is. *)
Lemma strip_no_space (s : string) :
  (forall c, In c (list_ascii_of_string s) -> PyStr.is_space c = false) ->
  PyStr.strip s = s.
Proof.
  intros H. unfold PyStr.strip. rewrite (lstrip_no_space s H).
  rewrite lstrip_no_space.
  - rewrite rev_str_rev_str. simpl. apply append_nil_r.
  - intros c Hc. apply rev_str_chars in Hc as [Hc | []]. now apply H.
Qed.

Lemma digit_not_space (c : ascii) : PyStr.is_digit c = true -> PyStr.is_space c = false.
Proof.
  unfold PyStr.is_digit, PyStr.is_space. cbv zeta.
  destruct (Nat.leb_spec 48 (nat_of_ascii c)); [|discriminate].
  intros _. apply orb_false_iff. split.
  - apply andb_false_iff. right. apply Nat.leb_gt. lia.
  - apply Nat.eqb_neq. lia.
Qed.

Lemma string_of_uint_digits (d : Decimal.uint) (c : ascii) :
  In c (list_ascii_of_string (NilEmpty.string_of_uint d)) -> PyStr.is_digit c = true.
Proof.
  induction d; simpl; intros H; try contradiction;
    destruct H as [<- | H]; auto.
Qed.

Lemma digit_count_nonneg (s : string) : 0 <= PyStr.digit_count s.
Proof.
  induction s as [|c s IH]; cbn [PyStr.digit_count]; [lia|].
  destruct (PyStr.is_digit c); lia.
Qed.

Lemma digit_count_uint (d : Decimal.uint) :
  PyStr.digit_count (NilEmpty.string_of_uint d) = Z.of_nat (Decimal.nb_digits d).
Proof.
  induction d; cbn [NilEmpty.string_of_uint Decimal.nb_digits]; [reflexivity|..];
    (rewrite Nat2Z.inj_succ, <- IHd; cbn [PyStr.digit_count];
     match goal with
     | |- (if ?b then _ else _) = _ => change b with true
     end; lia).
Qed.

Lemma str_nat_nonnil (d : Decimal.uint) :
  d <> Decimal.Nil -> NilZero.string_of_uint d = NilEmpty.string_of_uint d.
Proof. destruct d; [congruence | reflexivity..]. Qed.

(** A text without blanks that holds at most 4300 digits is read as the
    number its digits spell. *)
Lemma int_of_digits (d : Decimal.uint) :
  d <> Decimal.Nil ->
  Z.of_nat (Decimal.nb_digits d) <= PyStr.max_str_digits ->
  PyStr.int (NilEmpty.string_of_uint d) = Some (uint_value d 0) /\
  PyStr.int (String "-" (NilEmpty.string_of_uint d)) = Some (- uint_value d 0).
Proof.
  intros Hd Hlen.
  assert (Hlit : PyStr.literal (NilEmpty.string_of_uint d) = Some (uint_value d 0)).
  { unfold PyStr.literal, PyStr.too_many_digits. rewrite digit_count_uint.
    destruct (Z.ltb_spec PyStr.max_str_digits (Z.of_nat (Decimal.nb_digits d)));
      [lia|].
    apply digits_of_uint. now left. }
  unfold PyStr.int. rewrite !strip_no_space.
  - split.
    + rewrite <- Hlit. destruct d; try congruence; reflexivity.
    + now rewrite Hlit.
  - intros c [<- | Hc]; [reflexivity|].
    apply digit_not_space. eapply string_of_uint_digits; eassumption.
  - intros c Hc. apply digit_not_space. eapply string_of_uint_digits; eassumption.
Qed.

Lemma too_long_digits (z : Z) :
  PyStr.too_long z
  = (PyStr.max_str_digits
     <? match z with
        | 0 => 1
        | Zpos p | Zneg p => Z.of_nat (Decimal.nb_digits (Pos.to_uint p))
        end).
Proof.
  unfold PyStr.too_long, PyStr.too_many_digits, PyStr.str_int.
  destruct z as [|p|p]; [reflexivity | |];
    pose proof (DecimalPos.Unsigned.to_uint_nonnil p) as Hn;
    cbn [Z.to_int NilZero.string_of_int PyStr.digit_count];
    rewrite (str_nat_nonnil _ Hn), ?digit_count_uint; reflexivity.
Qed.

(** [int] reads back what [str] writes, for every integer that [str]
    writes. *)
Lemma int_str_int (z : Z) :
  PyStr.too_long z = false -> PyStr.int (PyStr.str_int z) = Some z.
Proof.
  rewrite too_long_digits. unfold PyStr.str_int.
  destruct z as [|p|p]; [reflexivity| |]; intros Hlen; apply Z.ltb_ge in Hlen;
    pose proof (DecimalPos.Unsigned.to_uint_nonnil p) as Hn;
    destruct (int_of_digits (Pos.to_uint p) Hn Hlen) as [Hpos Hneg];
    cbn [Z.to_int NilZero.string_of_int]; rewrite (str_nat_nonnil _ Hn);
    rewrite ?Hpos, ?Hneg, uint_value_to_uint; reflexivity.
Qed.

(** *** What [int] accepts is within the digit limit *)

Lemma digit_val_bounds (c : ascii) :
  PyStr.is_digit c = true -> 0 <= PyStr.digit_val c <= 9.
Proof.
  unfold PyStr.is_digit, PyStr.digit_val. intros H.
  apply andb_true_iff in H as [H1 H2].
  apply Nat.leb_le in H1, H2. lia.
Qed.

(** The digits read after [acc] extend it by as many decimal places as
    there are digits. *)
Lemma digits_bounds (r : string) :
  forall acc prev z,
    0 <= acc ->
    PyStr.digits r acc prev = Some z ->
    acc * 10 ^ PyStr.digit_count r <= z < (acc + 1) * 10 ^ PyStr.digit_count r /\
    (prev = false -> 1 <= PyStr.digit_count r).
Proof.
  induction r as [|c r IH]; intros acc prev z Hacc H.
  - cbn [PyStr.digits PyStr.digit_count] in *.
    destruct prev; [|discriminate]. injection H as <-.
    change (10 ^ 0) with 1. split; [lia | discriminate].
  - pose proof (digit_count_nonneg r) as Hn.
    cbn [PyStr.digits] in H. cbn [PyStr.digit_count].
    destruct (PyStr.is_digit c) eqn:Hc.
    + pose proof (digit_val_bounds c Hc) as Hv.
      apply IH in H; [|lia]. destruct H as [[Hlo Hhi] _].
      replace (1 + PyStr.digit_count r) with (Z.succ (PyStr.digit_count r)) by lia.
      rewrite Z.pow_succ_r by assumption.
      assert (HP : 0 < 10 ^ PyStr.digit_count r) by (apply Z.pow_pos_nonneg; lia).
      split; [split; nia | lia].
    + destruct (Ascii.eqb c "_"); [|discriminate].
      destruct prev; [|discriminate].
      destruct r as [|d r']; [discriminate|].
      destruct (PyStr.is_digit d) eqn:Hd; [|discriminate].
      apply IH in H; [|assumption]. destruct H as [Hb _].
      split; [exact Hb | discriminate].
Qed.

Lemma uint_value_shift (d : Decimal.uint) :
  forall acc,
    uint_value d acc = acc * 10 ^ Z.of_nat (Decimal.nb_digits d) + uint_value d 0.
Proof.
  induction d; intros acc; cbn [uint_value Decimal.nb_digits];
    [change (10 ^ Z.of_nat 0) with 1; lia|..];
    (rewrite Nat2Z.inj_succ, Z.pow_succ_r by lia;
     rewrite (IHd (10 * acc + _)), (IHd (10 * 0 + _)) || rewrite (IHd (10 * acc)), (IHd (10 * 0));
     ring).
Qed.

Lemma uint_value_nonneg (d : Decimal.uint) :
  forall acc, 0 <= acc -> 0 <= uint_value d acc.
Proof.
  induction d; intros acc H; cbn [uint_value]; [assumption|..]; apply IHd; lia.
Qed.

(** A numeral that does not start with a zero is at least the power of ten
    of its length less one. *)
Lemma uint_value_lower (d : Decimal.uint) :
  d <> Decimal.Nil -> Decimal.nzhead d = d ->
  10 ^ (Z.of_nat (Decimal.nb_digits d) - 1) <= uint_value d 0.
Proof.
  intros Hn Hz.
  assert (H : forall k d', 1 <= k ->
                10 ^ (Z.of_nat (S (Decimal.nb_digits d')) - 1) <= uint_value d' k).
  { intros k d' Hk. rewrite uint_value_shift.
    replace (Z.of_nat (S (Decimal.nb_digits d')) - 1)
      with (Z.of_nat (Decimal.nb_digits d')) by lia.
    pose proof (uint_value_nonneg d' 0 ltac:(lia)).
    assert (0 < 10 ^ Z.of_nat (Decimal.nb_digits d'))
      by (apply Z.pow_pos_nonneg; lia).
    nia. }
  destruct d; cbn [uint_value Decimal.nb_digits];
    [congruence | | apply H; lia ..].
  exfalso. eapply DecimalFacts.nzhead_nonzero. exact Hz.
Qed.

Lemma to_uint_nzhead (p : positive) :
  Decimal.nzhead (Pos.to_uint p) = Pos.to_uint p.
Proof.
  pose proof (DecimalPos.Unsigned.to_of (Pos.to_uint p)) as H.
  rewrite DecimalPos.Unsigned.of_to in H. simpl in H.
  pose proof (DecimalPos.Unsigned.to_uint_nonzero p) as Hnz.
  unfold Decimal.unorm in H.
  destruct (Decimal.nzhead (Pos.to_uint p)) eqn:E; now symmetry.
Qed.

(** A positive number below [10 ^ n] is written with at most [n] digits. *)
Lemma pos_nb_digits (p : positive) (n : Z) :
  Zpos p < 10 ^ n ->
  Z.of_nat (Decimal.nb_digits (Pos.to_uint p)) <= n.
Proof.
  intros Hp.
  pose proof (uint_value_lower (Pos.to_uint p)
                (DecimalPos.Unsigned.to_uint_nonnil p) (to_uint_nzhead p)) as Hlo.
  rewrite uint_value_to_uint in Hlo.
  destruct (Z.le_gt_cases (Z.of_nat (Decimal.nb_digits (Pos.to_uint p))) n)
    as [H | H]; [assumption|].
  destruct (Z.lt_ge_cases n 0) as [Hneg | Hpos].
  - rewrite Z.pow_neg_r in Hp by assumption. lia.
  - assert (10 ^ n <= 10 ^ (Z.of_nat (Decimal.nb_digits (Pos.to_uint p)) - 1))
      by (apply Z.pow_le_mono_r; lia).
    lia.
Qed.

Lemma literal_within_limit (r : string) (z : Z) :
  PyStr.literal r = Some z ->
  PyStr.too_long z = false /\ PyStr.too_long (- z) = false.
Proof.
  unfold PyStr.literal, PyStr.too_many_digits.
  destruct (Z.ltb_spec PyStr.max_str_digits (PyStr.digit_count r)) as [|Hlen];
    [discriminate|].
  intros H. apply digits_bounds in H as [[Hlo Hhi] Hn]; [|lia].
  specialize (Hn eq_refl). rewrite !too_long_digits.
  assert (Hp : forall p, Zpos p = z ->
                 Z.of_nat (Decimal.nb_digits (Pos.to_uint p))
                 <= PyStr.digit_count r).
  { intros p <-. apply pos_nb_digits. lia. }
  destruct z as [|p|p]; cbn [Z.opp]; try lia;
    split; apply Z.ltb_ge; try lia;
    (etransitivity; [apply Hp; reflexivity | assumption]).
Qed.

(** Every integer that [int] returns can be written back as text. *)
Lemma int_within_limit (s : string) (z : Z) :
  PyStr.int s = Some z -> PyStr.too_long z = false.
Proof.
  unfold PyStr.int.
  assert (Hneg : forall r, option_map Z.opp (PyStr.literal r) = Some z ->
                           PyStr.too_long z = false).
  { intros r H. destruct (PyStr.literal r) as [z'|] eqn:E; [|discriminate].
    injection H as <-. now apply literal_within_limit in E. }
  assert (Hpos : forall r, PyStr.literal r = Some z -> PyStr.too_long z = false).
  { intros r H. now apply literal_within_limit in H. }
  destruct (PyStr.strip s) as [|[[] [] [] [] [] [] [] []] r]; eauto.
Qed.

Lemma ints_within_limit (values : list string) :
  forall ids, ints values = Some ids ->
              Forall (fun i => PyStr.too_long i = false) ids.
Proof.
  induction values as [|v r IH]; intros ids H; simpl in H.
  - injection H as <-. constructor.
  - destruct (PyStr.int v) as [i|] eqn:Ei; [|discriminate].
    destruct (ints r) as [l|]; [|discriminate]. injection H as <-.
    constructor; [eapply int_within_limit; eassumption | now apply IH].
Qed.

(** ** Removing several ids in one run *)

Lemma present_find (l : list todo) (i : Z) :
  present l i = match find_todo_by_id l i with Some _ => true | None => false end.
Proof.
  unfold present. induction l as [|x l IH]; simpl; [reflexivity|].
  now destruct (id x =? i).
Qed.

Lemma filter_keeps_all (l : list todo) (i : Z) :
  (forall x, In x l -> id x <> i) -> filter (fun x => negb (id x =? i)) l = l.
Proof.
  induction l as [|x l IH]; simpl; intros H; [reflexivity|].
  destruct (Z.eqb_spec (id x) i) as [E | _]; simpl.
  - exfalso. apply (H x); auto.
  - rewrite IH; auto.
Qed.

Lemma NoDup_ids_filter (f : todo -> bool) (l : list todo) :
  NoDup (map id l) -> NoDup (map id (filter f l)).
Proof.
  induction l as [|x l IH]; simpl; intros Hnd; [constructor|].
  inversion Hnd as [|? ? Hnotin Hnd']; subst.
  destruct (f x); simpl; [|auto]. constructor; [|auto].
  intros Hin. apply Hnotin. apply in_map_iff in Hin as (y & E & Hy).
  apply filter_In in Hy as [Hy _]. rewrite <- E. now apply in_map.
Qed.

Lemma printable_plain_store (l : list todo) : Forall printable l -> plain_store l.
Proof. apply Forall_impl. now intros t (_ & H & _). Qed.

Lemma printable_dump (l : list todo) : Forall printable l -> dump_raises l = false.
Proof.
  intros H. unfold dump_raises. apply not_true_is_false. intros E.
  apply existsb_exists in E as (t & Hin & Ht).
  eapply Forall_forall in H; [|exact Hin]. destruct H. congruence.
Qed.

Lemma printable_filter (f : todo -> bool) (l : list todo) :
  Forall printable l -> Forall printable (filter f l).
Proof. apply incl_Forall, incl_filter. Qed.

(** With unique ids, a Remove that returns has dropped exactly the records
    with the id. *)
Lemma remove_todo_filter (i : Z) (w : world) (b : bool) (w' : world) :
  NoDup (map id (todos w)) ->
  remove_todo i w = Returned b w' ->
  b = present (todos w) i /\
  todos w' = filter (fun x => negb (id x =? i)) (todos w) /\
  file w' = file w.
Proof.
  intros Hnd. rewrite remove_todo_run, present_find. unfold printed.
  destruct (find_todo_by_id (todos w) i) as [t|] eqn:Hfind;
    destruct (raises _ _); try discriminate; intros [= <- <-];
    (split; [reflexivity|]); store_simpl; (split; [|reflexivity]).
  - destruct (find_some_split _ _ _ Hfind) as (l1 & l2 & Hl & Hid & Hn).
    rewrite Hl in *. rewrite list_remove_split by now rewrite Hid.
    rewrite filter_app. simpl. rewrite Hid, Z.eqb_refl. simpl.
    rewrite !filter_keeps_all; [reflexivity | |].
    + intros x Hx Ex. rewrite map_app in Hnd. simpl in Hnd.
      apply NoDup_remove_2 in Hnd. apply Hnd. apply in_or_app. right.
      rewrite Hid, <- Ex. now apply in_map.
    + now apply find_none_iff.
  - symmetry. apply filter_keeps_all. now apply find_none_iff.
Qed.

Lemma remove_ids_filter (ids : list Z) :
  forall (b b' : bool) (w w' : world),
    NoDup (map id (todos w)) ->
    for_each_id remove_todo ids b w = Returned b' w' ->
    b' = (b || existsb (present (todos w)) ids)%bool /\
    todos w' = filter (fun t => negb (listed ids t)) (todos w) /\
    file w' = file w.
Proof.
  induction ids as [|i ids IH]; intros b b' w w' Hnd Hrun; simpl in Hrun.
  - injection Hrun as <- <-. simpl. rewrite orb_false_r. split; [reflexivity|].
    split; [|reflexivity]. unfold listed. simpl. clear Hnd.
    induction (todos w) as [|a l IHl]; simpl; congruence.
  - unfold bind in Hrun.
    destruct (remove_todo i w) as [b1 w1 | w1 |] eqn:E1; try discriminate.
    destruct (remove_todo_filter i w b1 w1 Hnd E1) as (-> & Ht1 & Hf1).
    apply IH in Hrun as (-> & Ht' & Hf').
    2:{ rewrite Ht1. now apply NoDup_ids_filter. }
    split; [|split].
    + simpl. rewrite Ht1.
      destruct (present (todos w) i) eqn:Hp; simpl; [now rewrite orb_true_r|].
      rewrite filter_keeps_all; [reflexivity|].
      apply find_none_iff. rewrite present_find in Hp.
      now destruct (find_todo_by_id (todos w) i).
    + rewrite Ht', Ht1. clear. unfold listed. simpl.
      induction (todos w) as [|x l IHl]; simpl; [reflexivity|].
      destruct (id x =? i); simpl; [assumption|].
      destruct (existsb (Z.eqb (id x)) ids); simpl; congruence.
    + congruence.
Qed.

(** On a store of plain labels, Remove of ids within the digit limit
    returns for each of them. *)
Lemma remove_ids_return (ids : list Z) :
  Forall (fun i => PyStr.too_long i = false) ids ->
  forall (b : bool) (w : world),
    plain_store (todos w) ->
    exists b' w', for_each_id remove_todo ids b w = Returned b' w'.
Proof.
  induction 1 as [|i ids Hi _ IH]; intros b w Hp; simpl.
  - eauto.
  - destruct (run_op_returns (Remove i) w Hi Hp) as (b1 & w1 & H1).
    simpl in H1. unfold bind. rewrite H1. apply IH.
    apply (run_op_plain_store (Remove i) w b1 w1 Hi H1 Hp).
Qed.

Lemma main_remove (values : list string) (ids : list Z) (w : world) :
  values <> [] -> ints values = Some ids ->
  main (remove_cmd values) w
  = (b <- for_each_id remove_todo ids false ;; save_todos ;;; finish b) (w_load w).
Proof.
  intros Hne Hints.
  assert (E : parse_args (remove_cmd values)
              = Some (mkNamespace false false false None None (Some ids) false None
                                  false None false None None)).
  { unfold parse_args. simpl. destruct values as [|v r]; [congruence|].
    simpl plus. unfold plus. rewrite Hints. reflexivity. }
  now rewrite (main_parsed _ _ _ E).
Qed.

(** X10.  One run of [--remove] with several ids, on a data file with
    unique ids.  When the run returns, its status is 0 and in the saved
    list every record whose id is among the given ids is gone and every
    other record stays, in order; ids that designate nothing (or are given
    twice) do not stop the others from being removed.  The run returns when
    the records of the file are printable. *)
Theorem main_remove_many (values : list string) (ids : list Z) (w : world) :
  values <> [] ->
  ints values = Some ids ->
  NoDup (map id (todos (w_load w))) ->
  (forall code w',
      main (remove_cmd values) w = Returned code w' ->
      code = 0 /\
      file w' = Some (filter (fun t => negb (listed ids t)) (todos (w_load w)))) /\
  (Forall printable (todos (w_load w)) ->
   exists w', main (remove_cmd values) w = Returned 0 w').
Proof.
  intros Hne Hints Hnd. rewrite (main_remove _ _ _ Hne Hints). split.
  - intros code w' Hrun. unfold bind at 1 in Hrun.
    destruct (for_each_id remove_todo ids false (w_load w)) as [b w1 | w1 |] eqn:E;
      try discriminate.
    apply remove_ids_filter in E as (_ & Ht1 & _); [|assumption].
    apply save_finish_returned in Hrun as (-> & _ & Hf & _).
    now rewrite Hf, Ht1.
  - intros Hp.
    destruct (remove_ids_return ids (ints_within_limit _ _ Hints) false (w_load w)
                (printable_plain_store _ Hp)) as (b & w1 & E).
    pose proof E as E'. apply remove_ids_filter in E' as (_ & Ht1 & _); [|assumption].
    assert (Hp1 : Forall printable (todos w1))
      by (rewrite Ht1; now apply printable_filter).
    destruct (save_finish b w1 (printable_dump _ Hp1)) as (w' & _ & _ & _ & _ & _ & Hret).
    exists w'. unfold bind at 1. rewrite E. apply Hret. now right.
Qed.

Lemma main_remove_many_witness :
  exists w',
    main (remove_cmd ["3"; "7"; "1"; "3"]%string) three_task_file = Returned 0 w' /\
    file w' = Some [mkTodo 2 "b" false "" None].
Proof.
  destruct (main_remove_many ["3"; "7"; "1"; "3"]%string [3; 7; 1; 3] three_task_file)
    as (Hret & Hrun).
  - discriminate.
  - reflexivity.
  - simpl. repeat constructor; simpl; intuition discriminate.
  - destruct Hrun as (w' & Hrun); [repeat constructor|].
    exists w'. split; [assumption|].
    destruct (Hret 0 w' Hrun) as (_ & Hf). rewrite Hf. reflexivity.
Defined.

(** ** Ids as text: printed by the listing, read by the command line *)

(** X11.  For a record whose id is within the digit limit, the text that
    the listing prints in the ID column is read back as the id of that
    record by [int], hence by the options declared with [type=int]; and by
    [valid_positive_integer] when the id is at least 1, while the text of
    any other such id is refused there.  Conversely every id that [int]
    or [valid_positive_integer] delivers is within the digit limit. *)
Theorem listed_id_reads_back (t : todo) :
  (PyStr.too_long (id t) = false ->
   PyStr.int (row_id (table_row t)) = Some (id t) /\
   ints [row_id (table_row t)] = Some [id t] /\
   (1 <= id t -> valid_positive_integer (row_id (table_row t)) = inr (id t)) /\
   (id t < 1 -> valid_positive_integer (row_id (table_row t))
                = inl (ErrorNotPositive (row_id (table_row t))))) /\
  (forall value, PyStr.int value = Some (id t) -> PyStr.too_long (id t) = false) /\
  (forall value, valid_positive_integer value = inr (id t) ->
                 PyStr.too_long (id t) = false).
Proof.
  split; [|split].
  - intros Hlen.
    assert (E : PyStr.int (row_id (table_row t)) = Some (id t))
      by now apply int_str_int.
    split; [assumption|]. split; [simpl ints; simpl in E; now rewrite E|].
    unfold valid_positive_integer. rewrite E. split; intros H.
    + destruct (Z.ltb_spec (id t) 1); [lia | reflexivity].
    + destruct (Z.ltb_spec (id t) 1); [reflexivity | lia].
  - intros value. apply int_within_limit.
  - intros value H. unfold valid_positive_integer in H.
    destruct (PyStr.int value) as [z|] eqn:E; [|discriminate].
    destruct (z <? 1); [discriminate|]. injection H as ->.
    eapply int_within_limit; eassumption.
Qed.

Lemma listed_id_reads_back_witness :
  valid_positive_integer (row_id (table_row (mkTodo 42 "a" false "" None))) = inr 42.
Proof.
  destruct (listed_id_reads_back (mkTodo 42 "a" false "" None)) as (H & _).
  destruct (H eq_refl) as (_ & _ & H1 & _).
  apply H1. simpl. lia.
Defined.

(** ** The two status views *)

(** X12.  The completed-only and the pending-only view split the store: every
    record is in exactly one of them, and a status argument other than the
    two names filters nothing. *)
Theorem status_views_partition (l : list todo) :
  (forall t, In t l <->
             In t (status_filter (Some "completed"%string) l) \/
             In t (status_filter (Some "pending"%string) l)) /\
  (forall t, In t (status_filter (Some "completed"%string) l) ->
             In t (status_filter (Some "pending"%string) l) -> False) /\
  (List.length (status_filter (Some "completed"%string) l)
   + List.length (status_filter (Some "pending"%string) l) = List.length l)%nat /\
  (forall s, s <> "completed"%string -> s <> "pending"%string ->
             status_filter (Some s) l = l).
Proof.
  change (status_filter (Some "completed"%string) l) with (filter (fun t => done t) l).
  change (status_filter (Some "pending"%string) l)
    with (filter (fun t => negb (done t)) l).
  split; [|split; [|split]].
  - intros t. rewrite !filter_In. destruct (done t); simpl; intuition discriminate.
  - intros t. rewrite !filter_In. intros [_ H1] [_ H2]. rewrite H1 in H2. discriminate.
  - induction l as [|x l IH]; simpl; [reflexivity|].
    destruct (done x); simpl; lia.
  - intros s H1 H2. unfold status_filter.
    apply String.eqb_neq in H1, H2. now rewrite H1, H2.
Qed.

(** ** An empty search term *)


(** ** The validated options *)




(** ** Adding, then removing what was added *)

Lemma list_remove_last (l : list todo) (t : todo) :
  (forall x, In x l -> id x <> id t) -> list_remove (l ++ [t]) t = l.
Proof.
  induction l as [|x l IH]; simpl; intros H.
  - now rewrite todo_eqb_refl.
  - destruct (todo_eqb x t) eqn:E.
    + apply todo_eqb_id in E. exfalso. apply (H x); auto.
    + rewrite IH; auto.
Qed.

(** X15.  On every store, Add of one label followed by Remove of the id
    just handed out gives back the list of tasks as it was, whichever way
    the two calls end (each returns once its confirmation is printed, as it
    is for a plain label); the id is then handed out again by the next
    Add. *)
Theorem add_then_remove (w : world) (name : string) :
  exists k,
    first_free (todos w) name k /\
    add_todos [name] w
    = printed (appended w name k) (AddedTask (candidate name k)) tt /\
    (forall w1,
        leaves (add_todos [name] w) w1 ->
        remove_todo (max_id (todos w) + 1) w1
        = printed (w_todos w1 (todos w)) (RemovedTask (candidate name k)) true /\
        forall w2,
          leaves (remove_todo (max_id (todos w) + 1) w1) w2 ->
          todos w2 = todos w /\ file w2 = file w /\
          max_id (todos w2) + 1 = max_id (todos w) + 1) /\
    (plain name ->
     exists w1 w2,
       add_todos [name] w = Returned tt w1 /\
       remove_todo (max_id (todos w) + 1) w1 = Returned true w2).
Proof.
  destruct (next_add w name) as (k & Hfree & Hrun & _ & _ & Hlt & _).
  exists k. split; [assumption|]. split; [assumption|].
  assert (Hn : find_todo_by_id (todos w) (max_id (todos w) + 1) = None).
  { apply find_none_iff. intros x Hx. specialize (Hlt x Hx). simpl in Hlt. lia. }
  assert (Hrm : forall w1,
             todos w1 = todos w ++ [new_todo w name k] ->
             remove_todo (max_id (todos w) + 1) w1
             = printed (w_todos w1 (todos w)) (RemovedTask (candidate name k)) true).
  { intros w1 Ht. rewrite remove_todo_run, Ht, find_app, Hn. simpl.
    rewrite Z.eqb_refl, list_remove_last; [reflexivity|].
    intros x Hx. specialize (Hlt x Hx). simpl in *. lia. }
  split.
  - intros w1 Hl.
    assert (Ht : todos w1 = todos w ++ [new_todo w name k] /\ file w1 = file w).
    { rewrite Hrun in Hl. unfold printed in Hl.
      destruct (raises _ _); simpl in Hl; subst w1; split; reflexivity. }
    destruct Ht as [Ht Hf]. rewrite (Hrm _ Ht). split; [reflexivity|].
    intros w2 Hl2. unfold printed in Hl2.
    destruct (raises _ _); simpl in Hl2; subst w2; store_simpl;
      repeat split; assumption.
  - intros Hp. exists (added w name k). eexists. split.
    + rewrite Hrun. unfold printed. now rewrite raises_added_plain.
    + rewrite (Hrm (added w name k) eq_refl). unfold printed.
      rewrite raises_plain; [reflexivity | reflexivity |].
      simpl. now rewrite has_bracket_candidate, Hp.
Qed.

(** ** What [add_todos] reports *)

(** The worlds along [adds]. *)
Lemma adds_report (new_tasks : list string) (w w' : world) :
  adds new_tasks w w' ->
  exists l, todos w' = todos w ++ l /\
            console w' = console w ++ map (fun t => AddedTask (task t)) l /\
            map created_at l
            = map (clock w) (seq (ticks w) (List.length new_tasks)) /\
            ticks w' = (ticks w + List.length new_tasks)%nat /\
            clock w' = clock w.
Proof.
  induction 1 as [w | name rest k w w' Hf _ _ (l & Ht & Hc & Hs & Hn & Hk)].
  - exists []. simpl. rewrite !app_nil_r. repeat split. lia.
  - exists (new_todo w name k :: l). store_simpl. simpl.
    rewrite Ht, Hc, Hs, Hn, <- !app_assoc. simpl. repeat split; try assumption. lia.
Qed.

(** X16.  A call of [add_todos] that returns has printed one confirmation
    per record it appended, in order, each naming the label that was stored
    (the disambiguated one), and has stamped the records with successive
    readings of the clock; it returns on plain names.  A call that raises
    has appended one record more than it has confirmed. *)
Theorem add_reports_stored_labels (new_tasks : list string) (w : world) :
  (forall w',
      add_todos new_tasks w = Returned tt w' ->
      exists l,
        todos w' = todos w ++ l /\
        console w' = console w ++ map (fun t => AddedTask (task t)) l /\
        map created_at l = map (clock w) (seq (ticks w) (List.length new_tasks)) /\
        ticks w' = (ticks w + List.length new_tasks)%nat) /\
  (Forall plain new_tasks -> exists w', add_todos new_tasks w = Returned tt w') /\
  (forall w',
      add_todos new_tasks w = Raised w' ->
      exists l t,
        todos w' = todos w ++ l ++ [t] /\
        console w' = console w ++ map (fun t => AddedTask (task t)) l /\
        (List.length l < List.length new_tasks)%nat).
Proof.
  split; [|split].
  - intros w' Hrun. apply add_todos_adds in Hrun.
    destruct (adds_report _ _ _ Hrun) as (l & Ht & Hc & Hs & Hn & _).
    exists l. auto.
  - intros Hp. now apply add_todos_returns.
  - revert w. induction new_tasks as [|name rest IH]; intros w w' Hrun;
      simpl in Hrun; [discriminate|].
    destruct (add_one_run name w) as (k & _ & Hone).
    unfold bind in Hrun. rewrite Hone in Hrun. unfold printed in Hrun.
    destruct (raises _ _).
    + injection Hrun as <-. exists [], (new_todo w name k). simpl.
      rewrite app_nil_r. repeat split. lia.
    + apply IH in Hrun as (l & t & Ht & Hc & Hlen).
      exists (new_todo w name k :: l), t. store_simpl. simpl in *.
      rewrite Ht, Hc, <- !app_assoc. simpl. repeat split. lia.
Qed.

Lemma add_reports_stored_labels_witness :
  exists w',
    add_todos ["a"; "a"]%string one_task_world = Returned tt w' /\
    console w' = [AddedTask "a (1)"; AddedTask "a (2)"].
Proof.
  destruct (add_reports_stored_labels ["a"; "a"]%string one_task_world)
    as (_ & Hret & _).
  destruct Hret as (w' & Hrun); [repeat constructor|].
  exists w'. split; [assumption|].
  vm_compute in Hrun. injection Hrun as <-. reflexivity.
Defined.

(** ** Removing everything through [main] *)

